(** * RTPPOP: the time-windowed display-value generator

    Shallow embedding of the generator core of [src/script.js] and of the
    retained variant [src/unnamed/part_000] (lines 10-129 of both files):
    the time quantizer [getTimeSeed], the string hasher [stringToHash], the
    mulberry32 mixer [seededRandom], the range helper [getSeededRandomInt]
    and the policy functions [generateRandomRTP], [generateRandomMultiplier]
    and [getRTPColorClass].

    JavaScript numbers are IEEE-754 doubles.  Every number of this program
    is either an integer or an unsigned 32-bit integer divided by 2^32, so
    integer-valued numbers are embedded as [Z] with the rounding of each
    arithmetic operation written out ([Js.fl]), and the one fractional value
    as a mantissa and a binary exponent ([Js.number]).  Overflow to Infinity
    and subnormal numbers are not represented: all values here stay between
    2^-32 and 2^70 in magnitude. *)

(** Beyond the generator, the development covers the parts of the two
    files that compute without the document: the loop that builds the game
    list, the provider filter, the data of a card and the rendering loop,
    the slide index and the auto-slide interval of the carousel, the delay
    until the next refresh, the priority breakdown, and in the variant the
    Show All button and the provider tabs.  The clock, the interval timers
    and the events are explicit arguments; markup, styles, the popup and the
    network are left out. *)

From Stdlib Require Import ZArith Lia List String Ascii Bool QArith.
Import ListNotations.
Local Open Scope string_scope.
Local Open Scope Z_scope.

(** ** JavaScript number semantics *)

Module Js.

(** ToInt32 and ToUint32 of an integer-valued number. *)
Definition ToInt32 (x : Z) : Z := (x + 2 ^ 31) mod 2 ^ 32 - 2 ^ 31.
Definition ToUint32 (x : Z) : Z := x mod 2 ^ 32.

(** Binary64 has 53 significant bits. *)
Definition prec : Z := 53.

(** Number of low bits of [m] that do not fit in the significand. *)
Definition excess (m : Z) : Z := Z.max 0 (Z.log2 (Z.abs m) + 1 - prec).

(** [a / 2^s] rounded to the nearest integer, ties to even ([0 <= a]). *)
Definition rne_shift (a s : Z) : Z :=
  let q := Z.shiftr a s in
  let r := a - Z.shiftl q s in
  let h := Z.shiftl 1 (s - 1) in
  if s <=? 0 then a
  else if r <? h then q
  else if h <? r then q + 1
  else if Z.even q then q else q + 1.

(** Significand of the double nearest to the integer [m]. *)
Definition round_mant (m : Z) : Z :=
  Z.sgn m * rne_shift (Z.abs m) (excess m).

(** The double nearest to the integer [x] (round to nearest, ties to
    even), itself an integer. *)
Definition fl (x : Z) : Z := round_mant x * 2 ^ excess x.

(** Arithmetic on integer-valued numbers. *)
Definition add (x y : Z) : Z := fl (x + y).
Definition sub (x y : Z) : Z := fl (x - y).
Definition mul (x y : Z) : Z := fl (x * y).

(** [x % y]: the remainder takes the sign of the dividend and is exact. *)
Definition rem (x y : Z) : Z := Z.rem x y.

(** Bit operators: operands go through ToInt32 (ToUint32 for [>>>]),
    shift counts are taken modulo 32. *)
Definition bor (a b : Z) : Z := ToInt32 (Z.lor (ToInt32 a) (ToInt32 b)).
Definition band (a b : Z) : Z := ToInt32 (Z.land (ToInt32 a) (ToInt32 b)).
Definition bxor (a b : Z) : Z := ToInt32 (Z.lxor (ToInt32 a) (ToInt32 b)).
Definition shl (a n : Z) : Z :=
  ToInt32 (Z.shiftl (ToInt32 a) (ToUint32 n mod 32)).
Definition ushr (a n : Z) : Z :=
  Z.shiftr (ToUint32 a) (ToUint32 n mod 32).

(** [Math.imul] and [Math.abs]. *)
Definition imul (a b : Z) : Z := ToInt32 (ToInt32 a * ToInt32 b).
Definition abs (x : Z) : Z := Z.abs x.

(** A number [mant * 2^expo]. *)
Record number := Dyadic { mant : Z; expo : Z }.

(** [x / 4294967296] for an integer-valued number [x]: dividing by a power
    of two only changes the exponent. *)
Definition div4294967296 (x : Z) : number := Dyadic x (-32).

(** [d * k] for an integer-valued number [k], rounded. *)
Definition mulInt (d : number) (k : Z) : number :=
  let m := mant d * k in
  Dyadic (round_mant m) (expo d + excess m).

(** [Math.floor]. *)
Definition floor (d : number) : Z :=
  if 0 <=? expo d then mant d * 2 ^ expo d else mant d / 2 ^ (- expo d).

(** The rational value of a number. *)
Definition value (d : number) : Q :=
  if 0 <=? expo d then inject_Z (mant d * 2 ^ expo d)
  else Qmake (mant d) (Z.to_pos (2 ^ (- expo d))).

(** Array indexing by an integer-valued number; [None] is [undefined]. *)
Definition index {A : Type} (l : list A) (i : Z) : option A :=
  if i <? 0 then None else nth_error l (Z.to_nat i).

(** Strings are sequences of UTF-16 code units. *)
Definition str := list Z.

Definition wf_str (s : str) : Prop := Forall (fun c => 0 <= c < 65536) s.

(** Code units of a string literal (Latin-1). *)
Definition lit (s : string) : str :=
  List.map (fun a => Z.of_N (N_of_ascii a)) (list_ascii_of_string s).

(** [a === b] on strings. *)
Definition streq (a b : str) : bool :=
  if list_eq_dec Z.eq_dec a b then true else false.

(** The browser's interval timers: the identifiers of the running
    intervals, and the next identifier [setInterval] hands out. *)
Record timers := { running : list nat; fresh : nat }.

(** [setInterval(f, ms)]: a new running interval and its identifier. *)
Definition setInterval (t : timers) : nat * timers :=
  (fresh t, {| running := fresh t :: running t; fresh := S (fresh t) |}).

(** [clearInterval(x)]: stops the interval [x] if it is running; nothing
    happens for [undefined] or an identifier that is not running. *)
Definition clearInterval (x : option nat) (t : timers) : timers :=
  match x with
  | None => t
  | Some i => {| running := List.filter (fun j => negb (Nat.eqb j i)) (running t);
                 fresh := fresh t |}
  end.

End Js.

Declare Scope js_scope.
Delimit Scope js_scope with js.
Infix "+!" := Js.add (at level 50, left associativity) : js_scope.
Infix "-!" := Js.sub (at level 50, left associativity) : js_scope.
Infix "*!" := Js.mul (at level 40, left associativity) : js_scope.
Infix "%!" := Js.rem (at level 40, left associativity) : js_scope.
Local Open Scope js_scope.

(** ** The local calendar view of [new Date()] *)

Record Date := mkDate {
  getFullYear : Z;
  getMonth : Z;            (* 0 = January *)
  getDate : Z;             (* day of the month, from 1 *)
  getHours : Z;
  getMinutes : Z;
  getSeconds : Z;
  getMilliseconds : Z
}.

(** Field ranges of a valid JavaScript date (years span -271821..275760). *)
Definition valid_date (d : Date) : Prop :=
  -271821 <= getFullYear d <= 275760 /\
  0 <= getMonth d <= 11 /\
  1 <= getDate d <= 31 /\
  0 <= getHours d <= 23 /\
  0 <= getMinutes d <= 59 /\
  0 <= getSeconds d <= 59 /\
  0 <= getMilliseconds d <= 999.

(** Two moments in the same local calendar minute. *)
Definition same_minute (a b : Date) : Prop :=
  getFullYear a = getFullYear b /\ getMonth a = getMonth b /\
  getDate a = getDate b /\ getHours a = getHours b /\
  getMinutes a = getMinutes b.

(** [a] is in an earlier local calendar minute than [b]. *)
Definition earlier_minute (a b : Date) : Prop :=
  getFullYear a < getFullYear b \/
  (getFullYear a = getFullYear b /\
   (getMonth a < getMonth b \/
    (getMonth a = getMonth b /\
     (getDate a < getDate b \/
      (getDate a = getDate b /\
       (getHours a < getHours b \/
        (getHours a = getHours b /\ getMinutes a < getMinutes b))))))).

(** [a] is earlier than [b] in local calendar time. *)
Definition earlier (a b : Date) : Prop :=
  earlier_minute a b \/
  (same_minute a b /\
   (getSeconds a < getSeconds b \/
    (getSeconds a = getSeconds b /\ getMilliseconds a < getMilliseconds b))).

(** A game identifier is a string in every caller; the functions also accept
    a number ([typeof gameId === 'string' ? ... : gameId]). *)
Inductive GameId :=
| IdString (s : Js.str)
| IdNumber (n : Z).

(** ** Data shared by the two files *)

Module App.

(** A game object as pushed by [loadAllGames] (lines 157-163 of
    [src/script.js], 151-157 of [src/unnamed/part_000]). *)
Record Game := mkGame {
  id : Js.str;
  provider : Js.str;
  imageName : Js.str;
  imagePath : Js.str;
  priority : Z
}.

(** The application state of lines 35-37. *)
Record State := mkState {
  showAllGames : bool;
  currentProvider : Js.str;
  allGames : list Game
}.

(** What [createGameCard] writes into a card: the two data attributes, the
    image source, the text of the multiplier line, the tier class of the
    RTP bar and the RTP shown in it.  Styles and the click handler are left
    out. *)
Record Card := mkCard {
  data_game_id : Js.str;
  data_provider : Js.str;
  img_src : Js.str;
  multiplier_text : string;
  rtp_bar_class : string;
  data_rtp : Z
}.

End App.

(** ** [src/script.js] *)

Module Script.

Record Range := { min : Z; max : Z }.
Record Multiplier := { value : string; type : string }.

Record Config := {
  gamesPerProvider : Z;
  rtpRanges : Range;
  rtpwin : Range;
  multipliers : list Multiplier
}.

Definition CONFIG : Config := {|
  gamesPerProvider := 20;
  rtpRanges := {| min := 30; max := 99 |};
  rtpwin := {| min := 10; max := 100 |};
  multipliers := [
    {| value := "3X"; type := "low" |};
    {| value := "7X"; type := "low" |};
    {| value := "9X"; type := "medium" |};
    {| value := "10X"; type := "medium" |};
    {| value := "11X"; type := "medium" |};
    {| value := "13X"; type := "high" |};
    {| value := "15X"; type := "high" |};
    {| value := "17X"; type := "high" |};
    {| value := "20X"; type := "high" |}
  ]
|}.

(** Lines 46-54.  The clock read by [new Date()] is the argument [now]. *)
Definition getTimeSeed (now : Date) : Z :=
  let totalMinutes := getFullYear now *! 525600 +!
                      getMonth now *! 43800 +!
                      getDate now *! 1440 +!
                      getHours now *! 60 +!
                      getMinutes now in
  totalMinutes.

(** Lines 59-65; the result before the division by 4294967296. *)
Definition seededRandomBits (seed : Z) : Z :=
  let seed := Js.abs (Js.bor seed 0) in
  let seed := seed +! 0x6D2B79F5 in
  let t := seed in
  let t := Js.imul (Js.bxor t (Js.ushr t 15)) (Js.bor t 1) in
  let t := Js.bxor t (t +! Js.imul (Js.bxor t (Js.ushr t 7)) (Js.bor t 61)) in
  Js.ushr (Js.bxor t (Js.ushr t 14)) 0.

Definition seededRandom (seed : Z) : Js.number :=
  Js.div4294967296 (seededRandomBits seed).

(** Line 71: the new value of [seed]. *)
Definition lcgStep (seed : Z) : Z := (seed *! 9301 +! 49297) %! 233280.

(** Lines 70-74. *)
Definition getSeededRandomInt (seed min max : Z) : Z :=
  let seed := lcgStep seed in
  let random := seededRandom seed in
  Js.floor (Js.mulInt random (max -! min +! 1)) +! min.

(** Lines 79-87: one turn of the loop, and the loop over the code units. *)
Definition hashStep (hash char : Z) : Z :=
  let hash := (Js.shl hash 5 -! hash) +! char in
  Js.band hash hash.

Definition stringToHash (str : Js.str) : Z :=
  let hash := fold_left hashStep str 0 in
  Js.abs hash.

Definition gameNumericId (gameId : GameId) : Z :=
  match gameId with
  | IdString s => stringToHash s
  | IdNumber n => n
  end.

(** Lines 92-97. *)
Definition generateRandomRTP (gameId : GameId) (now : Date) : Z :=
  let timeSeed := getTimeSeed now in
  let gameNumericId := gameNumericId gameId in
  let combinedSeed := timeSeed *! 1000 +! gameNumericId in
  getSeededRandomInt combinedSeed (min (rtpRanges CONFIG)) (max (rtpRanges CONFIG)).

Record MultiplierResult := { r_value : string; r_type : string; r_text : string }.

(** Lines 102-120.  [None] is the TypeError raised by [multiplier.value]
    when the indexed entry is [undefined]. *)
Definition generateRandomMultiplier (gameId : GameId) (now : Date)
  : option MultiplierResult :=
  let timeSeed := getTimeSeed now in
  let gameNumericId := gameNumericId gameId in
  let multiplierSeed := (timeSeed *! 1000 +! gameNumericId) *! 7 in
  let multiplierIndex :=
    getSeededRandomInt multiplierSeed 0
      (Z.of_nat (List.length (multipliers CONFIG)) -! 1) in
  let multiplier := Js.index (multipliers CONFIG) multiplierIndex in
  let textSeed := (timeSeed *! 1000 +! gameNumericId) *! 11 in
  let isManual := getSeededRandomInt textSeed 0 1 =? 1 in
  let text := if isManual then "Manual" else "Auto" in
  match multiplier with
  | Some multiplier =>
      Some {| r_value := value multiplier;
              r_type := type multiplier;
              r_text := text |}
  | None => None
  end.

(** Lines 125-129. *)
Definition getRTPColorClass (rtp : Z) : string :=
  if 70 <=? rtp then "high"
  else if 50 <=? rtp then "medium"
  else "low".


(** *** Game list (lines 138-225) *)

(** The object pushed for one image (lines 152-163 and 186-197);
    [detectGamePriority] is [window.detectGamePriority] when it is set. *)
Definition makeGame (detectGamePriority : option (Js.str -> Js.str -> Z))
    (provider imageName : Js.str) : App.Game :=
  let gameId := (provider ++ Js.lit "/" ++ imageName)%list in
  let priority := match detectGamePriority with
                  | Some f => f imageName provider
                  | None => 4
                  end in
  {| App.id := gameId;
     App.provider := provider;
     App.imageName := imageName;
     App.imagePath := (Js.lit "images/" ++ provider ++ Js.lit "/" ++ imageName)%list;
     App.priority := priority |}.

(** The loop over [Object.entries(...)] with its inner [images.forEach]
    (lines 150-165 and 184-199), pushing onto [allGames]. *)
Definition pushGames (detectGamePriority : option (Js.str -> Js.str -> Z))
    (entries : list (Js.str * list Js.str)) (allGames : list App.Game)
  : list App.Game :=
  fold_left
    (fun allGames entry =>
       let '(provider, images) := entry in
       fold_left
         (fun allGames imageName =>
            (allGames ++ [makeGame detectGamePriority provider imageName])%list)
         images allGames)
    entries allGames.

(** Lines 219-225. *)
Definition filterGamesByProvider (provider : Js.str) (st : App.State)
  : list App.Game :=
  if Js.streq provider (Js.lit "all") then App.allGames st
  else List.filter (fun game => Js.streq (App.provider game) provider) (App.allGames st).

(** *** Cards (lines 234-305) *)

(** Lines 234-276.  [generateRandomRTP] and [generateRandomMultiplier] read
    the clock one after the other: [now1] and [now2]. *)
Definition createGameCard (game : App.Game) (index : Z) (now1 now2 : Date)
  : option App.Card :=
  let rtp := generateRandomRTP (IdString (App.id game)) now1 in
  match generateRandomMultiplier (IdString (App.id game)) now2 with
  | None => None
  | Some multiplier =>
      let colorClass := getRTPColorClass rtp in
      Some {| App.data_game_id := App.id game;
              App.data_provider := App.provider game;
              App.img_src := App.imagePath game;
              App.multiplier_text :=
                (r_value multiplier ++ " " ++ r_text multiplier)%string;
              App.rtp_bar_class := colorClass;
              App.data_rtp := rtp |}
  end.

(** The loop of lines 297-301, [n] turns from index [i]; [clock k] is the
    [k]-th reading of the clock and [None] a TypeError. *)
Fixpoint renderLoop (filteredGames : list App.Game) (clock : nat -> Date)
    (n : nat) (i : Z) (k : nat) (grid : list App.Card) : option (list App.Card) :=
  match n with
  | O => Some grid
  | S n' =>
      match Js.index filteredGames i with
      | None => None
      | Some game =>
          match createGameCard game i (clock k) (clock (S k)) with
          | None => None
          | Some card =>
              renderLoop filteredGames clock n' (i +! 1) (S (S k)) (grid ++ [card])
          end
      end
  end.

(** Lines 286-305: the cards appended to the emptied grid. *)
Definition renderGameCards (st : App.State) (clock : nat -> Date)
  : option (list App.Card) :=
  let grid := [] in
  let filteredGames := filterGamesByProvider (App.currentProvider st) st in
  let maxCards := Z.of_nat (List.length filteredGames) in
  renderLoop filteredGames clock (Z.to_nat maxCards) 0 0%nat grid.

(** *** Carousel (lines 398-511) *)

(** The variables of [setupCarousel] that its inner functions change, and
    the browser's interval timers. *)
Record Carousel := {
  currentSlide : Z;
  autoSlideInterval : option nat;
  timers : Js.timers
}.

(** Lines 415-423: the offset of the track and the [active] flag of each of
    the [dots] dots. *)
Definition updateCarousel (dots : nat) (c : Carousel) : Z * list bool :=
  let offset := (- currentSlide c) *! 100 in
  (offset, List.map (fun index => Z.of_nat index =? currentSlide c) (seq 0 dots)).

(** Lines 445-447. *)
Definition startAutoSlide (c : Carousel) : Carousel :=
  let (i, t) := Js.setInterval (timers c) in
  {| currentSlide := currentSlide c; autoSlideInterval := Some i; timers := t |}.

(** Lines 450-453. *)
Definition resetAutoSlide (c : Carousel) : Carousel :=
  startAutoSlide
    {| currentSlide := currentSlide c;
       autoSlideInterval := autoSlideInterval c;
       timers := Js.clearInterval (autoSlideInterval c) (timers c) |}.

(** Lines 426-432. *)
Definition goToSlide (totalSlides index : Z) (c : Carousel) : Carousel :=
  let currentSlide := index in
  let currentSlide := if currentSlide <? 0 then totalSlides -! 1 else currentSlide in
  let currentSlide := if totalSlides <=? currentSlide then 0 else currentSlide in
  resetAutoSlide
    {| currentSlide := currentSlide;
       autoSlideInterval := autoSlideInterval c;
       timers := timers c |}.

(** Lines 435-442. *)
Definition nextSlide (totalSlides : Z) (c : Carousel) : Carousel :=
  goToSlide totalSlides (currentSlide c +! 1) c.

Definition prevSlide (totalSlides : Z) (c : Carousel) : Carousel :=
  goToSlide totalSlides (currentSlide c -! 1) c.

(** Lines 506-508: the state after [setupCarousel] has run. *)
Definition initCarousel (t : Js.timers) : Carousel :=
  startAutoSlide {| currentSlide := 0; autoSlideInterval := None; timers := t |}.

(** The events with a listener in lines 455-504, touch events apart, and
    the firing of a running interval. *)
Inductive CarouselEvent :=
| NextClick
| PrevClick
| DotClick (index : nat)
| MouseEnter
| MouseLeave
| IntervalFires (i : nat).

Definition handleEvent (totalSlides : Z) (c : Carousel) (e : CarouselEvent)
  : Carousel :=
  match e with
  | NextClick => nextSlide totalSlides c
  | PrevClick => prevSlide totalSlides c
  | DotClick index => goToSlide totalSlides (Z.of_nat index) c
  | MouseEnter =>
      {| currentSlide := currentSlide c;
         autoSlideInterval := autoSlideInterval c;
         timers := Js.clearInterval (autoSlideInterval c) (timers c) |}
  | MouseLeave => startAutoSlide c
  | IntervalFires i =>
      if existsb (Nat.eqb i) (Js.running (timers c)) then nextSlide totalSlides c
      else c
  end.

(** *** Refresh timer (lines 520-529) *)

Definition getTimeUntilNextUpdate (now : Date) : Z :=
  let currentSeconds := getSeconds now in
  let currentMilliseconds := getMilliseconds now in
  let msUntilNext := (60 -! currentSeconds) *! 1000 -! currentMilliseconds in
  msUntilNext.

(** *** Priority breakdown of [init] (lines 733-748) *)

Record PriorityCounts := {
  fortuneImages : Z;
  popularImages : Z;
  fortuneProviders : Z;
  olympusGames : Z;
  popularProviders : Z;
  regularGames : Z
}.

Definition countPriority (pc : PriorityCounts) (game : App.Game) : PriorityCounts :=
  let (c1, c2, c3, c4, c5, c6) := pc in
  if App.priority game =? 1 then Build_PriorityCounts (c1 +! 1) c2 c3 c4 c5 c6
  else if App.priority game =? 2 then Build_PriorityCounts c1 (c2 +! 1) c3 c4 c5 c6
  else if App.priority game =? 3 then Build_PriorityCounts c1 c2 (c3 +! 1) c4 c5 c6
  else if App.priority game =? 4 then Build_PriorityCounts c1 c2 c3 (c4 +! 1) c5 c6
  else if App.priority game =? 5 then Build_PriorityCounts c1 c2 c3 c4 (c5 +! 1) c6
  else Build_PriorityCounts c1 c2 c3 c4 c5 (c6 +! 1).

Definition priorityCounts (allGames : list App.Game) : PriorityCounts :=
  fold_left countPriority allGames (Build_PriorityCounts 0 0 0 0 0 0).

End Script.

(** ** [src/unnamed/part_000]: the variant without the Manual/Auto text *)

Module Part000.

Record Range := { min : Z; max : Z }.
Record Multiplier := { value : string; type : string }.

Record Config := {
  gamesPerProvider : Z;
  rtpRanges : Range;
  rtpwin : Range;
  multipliers : list Multiplier
}.

Definition CONFIG : Config := {|
  gamesPerProvider := 20;
  rtpRanges := {| min := 30; max := 99 |};
  rtpwin := {| min := 10; max := 100 |};
  multipliers := [
    {| value := "3X"; type := "low" |};
    {| value := "7X"; type := "low" |};
    {| value := "9X"; type := "medium" |};
    {| value := "10X"; type := "medium" |};
    {| value := "11X"; type := "medium" |};
    {| value := "13X"; type := "high" |};
    {| value := "15X"; type := "high" |};
    {| value := "17X"; type := "high" |};
    {| value := "20X"; type := "high" |}
  ]
|}.

(** Lines 46-54. *)
Definition getTimeSeed (now : Date) : Z :=
  let totalMinutes := getFullYear now *! 525600 +!
                      getMonth now *! 43800 +!
                      getDate now *! 1440 +!
                      getHours now *! 60 +!
                      getMinutes now in
  totalMinutes.

(** Lines 59-65. *)
Definition seededRandomBits (seed : Z) : Z :=
  let seed := Js.abs (Js.bor seed 0) in
  let seed := seed +! 0x6D2B79F5 in
  let t := seed in
  let t := Js.imul (Js.bxor t (Js.ushr t 15)) (Js.bor t 1) in
  let t := Js.bxor t (t +! Js.imul (Js.bxor t (Js.ushr t 7)) (Js.bor t 61)) in
  Js.ushr (Js.bxor t (Js.ushr t 14)) 0.

Definition seededRandom (seed : Z) : Js.number :=
  Js.div4294967296 (seededRandomBits seed).

(** Lines 70-74. *)
Definition getSeededRandomInt (seed min max : Z) : Z :=
  let seed := (seed *! 9301 +! 49297) %! 233280 in
  let random := seededRandom seed in
  Js.floor (Js.mulInt random (max -! min +! 1)) +! min.

(** Lines 79-87. *)
Definition stringToHash (str : Js.str) : Z :=
  let hash :=
    fold_left (fun hash char =>
                 let hash := (Js.shl hash 5 -! hash) +! char in
                 Js.band hash hash) str 0 in
  Js.abs hash.

Definition gameNumericId (gameId : GameId) : Z :=
  match gameId with
  | IdString s => stringToHash s
  | IdNumber n => n
  end.

(** Lines 92-97. *)
Definition generateRandomRTP (gameId : GameId) (now : Date) : Z :=
  let timeSeed := getTimeSeed now in
  let gameNumericId := gameNumericId gameId in
  let combinedSeed := timeSeed *! 1000 +! gameNumericId in
  getSeededRandomInt combinedSeed (min (rtpRanges CONFIG)) (max (rtpRanges CONFIG)).

Record MultiplierResult := { r_value : string; r_type : string }.

(** Lines 102-114. *)
Definition generateRandomMultiplier (gameId : GameId) (now : Date)
  : option MultiplierResult :=
  let timeSeed := getTimeSeed now in
  let gameNumericId := gameNumericId gameId in
  let multiplierSeed := (timeSeed *! 1000 +! gameNumericId) *! 7 in
  let multiplierIndex :=
    getSeededRandomInt multiplierSeed 0
      (Z.of_nat (List.length (multipliers CONFIG)) -! 1) in
  let multiplier := Js.index (multipliers CONFIG) multiplierIndex in
  match multiplier with
  | Some multiplier =>
      Some {| r_value := value multiplier; r_type := type multiplier |}
  | None => None
  end.

(** Lines 119-123. *)
Definition getRTPColorClass (rtp : Z) : string :=
  if 70 <=? rtp then "high"
  else if 50 <=? rtp then "medium"
  else "low".


(** *** Game list and cards (lines 213-304) *)

(** Lines 213-219. *)
Definition filterGamesByProvider (provider : Js.str) (st : App.State)
  : list App.Game :=
  if Js.streq provider (Js.lit "all") then App.allGames st
  else List.filter (fun game => Js.streq (App.provider game) provider) (App.allGames st).

(** Lines 228-270; the multiplier line ends in the fixed word Manual. *)
Definition createGameCard (game : App.Game) (index : Z) (now1 now2 : Date)
  : option App.Card :=
  let rtp := generateRandomRTP (IdString (App.id game)) now1 in
  match generateRandomMultiplier (IdString (App.id game)) now2 with
  | None => None
  | Some multiplier =>
      let colorClass := getRTPColorClass rtp in
      Some {| App.data_game_id := App.id game;
              App.data_provider := App.provider game;
              App.img_src := App.imagePath game;
              App.multiplier_text := (r_value multiplier ++ " Manual")%string;
              App.rtp_bar_class := colorClass;
              App.data_rtp := rtp |}
  end.

(** The loop of lines 293-297. *)
Fixpoint renderLoop (filteredGames : list App.Game) (clock : nat -> Date)
    (n : nat) (i : Z) (k : nat) (grid : list App.Card) : option (list App.Card) :=
  match n with
  | O => Some grid
  | S n' =>
      match Js.index filteredGames i with
      | None => None
      | Some game =>
          match createGameCard game i (clock k) (clock (S k)) with
          | None => None
          | Some card =>
              renderLoop filteredGames clock n' (i +! 1) (S (S k)) (grid ++ [card])
          end
      end
  end.

(** Lines 288-290: how many cards to show. *)
Definition maxCards (st : App.State) : Z :=
  let filteredGames := filterGamesByProvider (App.currentProvider st) st in
  if App.showAllGames st || (gamesPerProvider CONFIG =? 0)
  then Z.of_nat (List.length filteredGames)
  else Z.min (gamesPerProvider CONFIG) (Z.of_nat (List.length filteredGames)).

(** Lines 280-304: the cards appended to the emptied grid. *)
Definition renderGameCards (st : App.State) (clock : nat -> Date)
  : option (list App.Card) :=
  let grid := [] in
  let filteredGames := filterGamesByProvider (App.currentProvider st) st in
  renderLoop filteredGames clock (Z.to_nat (maxCards st)) 0 0%nat grid.

(** *** Show All button and provider tabs (lines 326-398) *)




(** Line 356: the state change of a click on the button. *)
Definition showAllClick (st : App.State) : App.State :=
  {| App.showAllGames := negb (App.showAllGames st);
     App.currentProvider := App.currentProvider st;
     App.allGames := App.allGames st |}.

(** Lines 380 and 390: the state change of a click on the tab whose
    [data-provider] attribute is [provider]. *)
Definition tabClick (provider : Js.str) (st : App.State) : App.State :=
  {| App.showAllGames := false;
     App.currentProvider := provider;
     App.allGames := App.allGames st |}.

End Part000.

(** ** The specification's wording of the hasher, the mixer and the
    pre-scramble, for comparison with the code *)

Module Spec.

(** Truncation to a 32-bit two's-complement integer. *)
Definition wrap32 (x : Z) : Z := (x + 2 ^ 31) mod 2 ^ 32 - 2 ^ 31.

(** "accumulates via hash = hash*31 - hash + charCode folded into a
    fixed-width signed integer, then returns its absolute value". *)
Definition hashId (id : Js.str) : Z :=
  Z.abs (fold_left (fun hash charCode => wrap32 (hash * 31 - hash + charCode)) id 0).

(** The four documented mulberry32 steps on a 32-bit seed; the result
    before the division by 4294967296. *)
Definition rngBits (seed : Z) : Z :=
  let seed := (seed + 0x6D2B79F5) mod 2 ^ 32 in
  let t := (Z.lxor seed (Z.shiftr seed 15) * Z.lor seed 1) mod 2 ^ 32 in
  let t := Z.lxor t ((t + (Z.lxor t (Z.shiftr t 7) * Z.lor t 61) mod 2 ^ 32) mod 2 ^ 32) in
  Z.lxor t (Z.shiftr t 14).

Definition rngValue (seed : Z) : Js.number := Js.Dyadic (rngBits seed) (-32).

(** "(seed*9301 + 49297) mod 233280", in exact integer arithmetic. *)
Definition preScramble (seed : Z) : Z := (seed * 9301 + 49297) mod 233280.

End Spec.

(** ** Exact-arithmetic formulations that the code is shown to compute *)

(** The weighted sum of calendar fields. *)
Definition weightedMinutes (t : Date) : Z :=
  getFullYear t * 525600 + getMonth t * 43800 + getDate t * 1440 +
  getHours t * 60 + getMinutes t.

(** The hash recurrence [(hash << 5) - hash + char], that is
    [hash * 32 - hash + char], truncated to 32 bits at each step. *)
Definition hash31 (id : Js.str) : Z :=
  Z.abs (fold_left (fun hash charCode => Spec.wrap32 (hash * 32 - hash + charCode)) id 0).

(** The seed shared by the RTP, the multiplier index and the text. *)
Definition baseSeed (g : Js.str) (t : Date) : Z :=
  weightedMinutes t * 1000 + Script.stringToHash g.

(** Horner evaluation of the code units at 31, without truncation. *)
Definition hashHorner (s : Js.str) : Z := fold_left (fun h c => h * 31 + c) s 0.

(** [b] is on the first day of the month that follows the month of [a]. *)
Definition first_of_next_month (a b : Date) : Prop :=
  getDate b = 1 /\
  ((getFullYear b = getFullYear a /\ getMonth b = getMonth a + 1) \/
   (getFullYear b = getFullYear a + 1 /\ getMonth a = 11 /\ getMonth b = 0)).

(** *** Carousel states *)

(** [setInterval] has never handed out an identifier that is still to
    come. *)
Definition timers_ok (t : Js.timers) : Prop :=
  Forall (fun j => (j < Js.fresh t)%nat) (Js.running t).

(** The slide shown is one of the [totalSlides] slides. *)
Definition slide_ok (totalSlides : Z) (c : Script.Carousel) : Prop :=
  0 <= Script.currentSlide c < totalSlides.

(** Exactly one interval runs and [autoSlideInterval] holds it. *)
Definition playing (c : Script.Carousel) : Prop :=
  timers_ok (Script.timers c) /\
  exists i, Script.autoSlideInterval c = Some i /\ Js.running (Script.timers c) = [i].

(** No interval runs. *)
Definition paused (c : Script.Carousel) : Prop :=
  timers_ok (Script.timers c) /\ Js.running (Script.timers c) = [].

(** The interval [i] runs and [autoSlideInterval] does not hold it. *)
Definition orphan (c : Script.Carousel) (i : nat) : Prop :=
  In i (Js.running (Script.timers c)) /\ Script.autoSlideInterval c <> Some i.

(** Clicks on the arrows and the dots. *)
Definition is_click (e : Script.CarouselEvent) : Prop :=
  match e with
  | Script.NextClick | Script.PrevClick | Script.DotClick _ => True
  | _ => False
  end.

(** Events of the pointer entering or leaving the track. *)
Definition is_hover (e : Script.CarouselEvent) : Prop :=
  match e with
  | Script.MouseEnter | Script.MouseLeave => True
  | _ => False
  end.

(** The carousel after a sequence of events. *)
Definition handleEvents (totalSlides : Z) (es : list Script.CarouselEvent)
    (c : Script.Carousel) : Script.Carousel :=
  fold_left (Script.handleEvent totalSlides) es c.

(** *** Game list and cards *)

(** The games of the entries, in the order of the entries and of their
    images. *)
Definition gamesOf (detectGamePriority : option (Js.str -> Js.str -> Z))
    (entries : list (Js.str * list Js.str)) : list App.Game :=
  flat_map (fun entry => List.map (Script.makeGame detectGamePriority (fst entry)) (snd entry))
    entries.




(** The sum of the six counters of the priority breakdown. *)
Definition totalCount (pc : Script.PriorityCounts) : Z :=
  Script.fortuneImages pc + Script.popularImages pc + Script.fortuneProviders pc +
  Script.olympusGames pc + Script.popularProviders pc + Script.regularGames pc.

(** ** Rounding: integers below 2^53 are doubles *)

Lemma excess_small (x : Z) : Z.abs x < 2 ^ 53 -> Js.excess x = 0.
Proof.
  intros Hx. unfold Js.excess, Js.prec.
  destruct (Z.eq_dec (Z.abs x) 0) as [E | E].
  - rewrite E. reflexivity.
  - assert (Z.log2 (Z.abs x) < 53) by (apply Z.log2_lt_pow2; lia).
    lia.
Qed.

Lemma round_mant_small (x : Z) : Z.abs x < 2 ^ 53 -> Js.round_mant x = x.
Proof.
  intros Hx. unfold Js.round_mant, Js.rne_shift.
  rewrite (excess_small x Hx). cbn [Z.leb Z.compare].
  rewrite Z.mul_comm. apply Z.abs_sgn.
Qed.

Lemma fl_exact (x : Z) : Z.abs x < 2 ^ 53 -> Js.fl x = x.
Proof.
  intros Hx. unfold Js.fl.
  rewrite (round_mant_small x Hx), (excess_small x Hx). lia.
Qed.

(** The rounding returns a nearest double: the error is at most half a
    unit in the last place. *)
Lemma rne_shift_error (a s : Z) :
  0 <= a -> 0 < s ->
  2 * Z.abs (Js.rne_shift a s * 2 ^ s - a) <= 2 ^ s.
Proof.
  intros Ha Hs. unfold Js.rne_shift.
  destruct (Z.leb_spec s 0) as [Hle | _]; [lia |].
  rewrite Z.shiftr_div_pow2, !Z.shiftl_mul_pow2, Z.mul_1_l by lia.
  assert (Hp : 2 ^ s = 2 * 2 ^ (s - 1)).
  { rewrite <- Z.pow_succ_r by lia. f_equal. lia. }
  assert (Hh : 0 < 2 ^ (s - 1)) by (apply Z.pow_pos_nonneg; lia).
  pose proof (Z.div_mod a (2 ^ s)) as Hdm.
  pose proof (Z.mod_pos_bound a (2 ^ s)) as Hr.
  remember (a / 2 ^ s) as q. remember (a mod 2 ^ s) as r.
  remember (2 ^ (s - 1)) as h. rewrite Hp in *. clear Hp Heqh Heqq Heqr.
  assert (Er : a - q * (2 * h) = r) by lia. rewrite Er.
  destruct (Z.ltb_spec r h); [lia |].
  destruct (Z.ltb_spec h r); [lia |].
  destruct (Z.even q); lia.
Qed.

Lemma fl_nearest (x : Z) : 2 * Z.abs (Js.fl x - x) <= 2 ^ Js.excess x.
Proof.
  unfold Js.fl, Js.round_mant.
  assert (Hs : 0 <= Js.excess x) by (unfold Js.excess; lia).
  destruct (Z.eq_dec (Js.excess x) 0) as [E0 | E0].
  - rewrite E0. unfold Js.rne_shift. cbn [Z.leb Z.compare].
    rewrite (Z.mul_comm (Z.sgn x)), Z.abs_sgn. change (2 ^ 0) with 1. lia.
  - pose proof (rne_shift_error (Z.abs x) (Js.excess x)) as H.
    assert (0 < 2 ^ Js.excess x) by (apply Z.pow_pos_nonneg; lia).
    remember (Js.rne_shift (Z.abs x) (Js.excess x)) as m.
    remember (2 ^ Js.excess x) as p.
    destruct (Z.abs_spec x) as [[Hx Ex] | [Hx Ex]]; rewrite Ex in H.
    + destruct (Z.sgn_spec x) as [[? ->] | [[? ->] | [? ->]]]; try lia.
    + destruct (Z.sgn_spec x) as [[? ->] | [[? ->] | [? ->]]]; lia.
Qed.

(** Ties go to the even significand. *)
Example fl_ties_to_even :
  Js.fl (2 ^ 53 + 1) = 2 ^ 53 /\ Js.fl (2 ^ 53 + 3) = 2 ^ 53 + 4 /\
  Js.fl (- (2 ^ 53 + 3)) = - (2 ^ 53 + 4) /\
  Js.fl 12345678901234567890 = 12345678901234567168.
Proof. repeat split; vm_compute; reflexivity. Qed.

Lemma add_exact (x y : Z) : Z.abs (x + y) < 2 ^ 53 -> x +! y = x + y.
Proof. apply fl_exact. Qed.

Lemma sub_exact (x y : Z) : Z.abs (x - y) < 2 ^ 53 -> x -! y = x - y.
Proof. apply fl_exact. Qed.

Lemma mul_exact (x y : Z) : Z.abs (x * y) < 2 ^ 53 -> x *! y = x * y.
Proof. apply fl_exact. Qed.

Lemma mulInt_exact (d : Js.number) (k : Z) :
  Z.abs (Js.mant d * k) < 2 ^ 53 ->
  Js.mulInt d k = Js.Dyadic (Js.mant d * k) (Js.expo d).
Proof.
  intros H. unfold Js.mulInt.
  rewrite (round_mant_small _ H), (excess_small _ H), Z.add_0_r. reflexivity.
Qed.

(** ** 32-bit conversions *)

Lemma ToInt32_range (x : Z) : - 2 ^ 31 <= Js.ToInt32 x < 2 ^ 31.
Proof.
  unfold Js.ToInt32.
  pose proof (Z.mod_pos_bound (x + 2 ^ 31) (2 ^ 32)). lia.
Qed.

Lemma ToUint32_range (x : Z) : 0 <= Js.ToUint32 x < 2 ^ 32.
Proof. unfold Js.ToUint32. apply Z.mod_pos_bound. lia. Qed.

Lemma ToInt32_small (x : Z) : - 2 ^ 31 <= x < 2 ^ 31 -> Js.ToInt32 x = x.
Proof.
  intros H. unfold Js.ToInt32. rewrite Z.mod_small; lia.
Qed.

Lemma ToUint32_ToInt32 (x : Z) : Js.ToUint32 (Js.ToInt32 x) = Js.ToUint32 x.
Proof.
  unfold Js.ToUint32, Js.ToInt32.
  rewrite Zminus_mod, Z.mod_mod by lia.
  rewrite <- Zminus_mod. f_equal. lia.
Qed.

Lemma ToInt32_mod (x : Z) : Js.ToInt32 (x mod 2 ^ 32) = Js.ToInt32 x.
Proof.
  unfold Js.ToInt32.
  rewrite Zplus_mod, Z.mod_mod by lia.
  rewrite <- Zplus_mod. reflexivity.
Qed.

Lemma ToInt32_idem (x : Z) : Js.ToInt32 (Js.ToInt32 x) = Js.ToInt32 x.
Proof. apply ToInt32_small, ToInt32_range. Qed.

Lemma ushr_0 (x : Z) : Js.ushr x 0 = Js.ToUint32 x.
Proof. unfold Js.ushr. reflexivity. Qed.

(** Rewrites the arithmetic operations whose exact result is shown by [lia]
    to be below 2^53, innermost first. *)
Ltac js_exact :=
  repeat match goal with
    | |- context [Js.mul ?a ?b] => rewrite (mul_exact a b) by lia
    | |- context [Js.add ?a ?b] => rewrite (add_exact a b) by lia
    | |- context [Js.sub ?a ?b] => rewrite (sub_exact a b) by lia
    end.

(** ** The time quantizer *)

Lemma getTimeSeed_exact (t : Date) :
  valid_date t -> Script.getTimeSeed t = weightedMinutes t.
Proof.
  unfold valid_date, Script.getTimeSeed, weightedMinutes.
  destruct t as [y m d h mi s ms]; cbn [getFullYear getMonth getDate getHours getMinutes getSeconds getMilliseconds].
  intros (Hy & Hm & Hd & Hh & Hmi & _).
  js_exact. reflexivity.
Qed.

Lemma weightedMinutes_bound (t : Date) :
  valid_date t -> Z.abs (weightedMinutes t) < 2 ^ 38.
Proof.
  unfold valid_date, weightedMinutes.
  destruct t as [y m d h mi s ms]; cbn [getFullYear getMonth getDate getHours getMinutes getSeconds getMilliseconds].
  intros (Hy & Hm & Hd & Hh & Hmi & _). lia.
Qed.

Lemma getTimeSeed_same_minute (a b : Date) :
  same_minute a b -> Script.getTimeSeed a = Script.getTimeSeed b.
Proof.
  unfold same_minute, Script.getTimeSeed.
  intros (-> & -> & -> & -> & ->). reflexivity.
Qed.

(** ** The string hasher *)

Lemma hashStep_int32 (h c : Z) : - 2 ^ 31 <= Script.hashStep h c < 2 ^ 31.
Proof. unfold Script.hashStep, Js.band. apply ToInt32_range. Qed.

Lemma land_diag_ToInt32 (x : Z) : Js.band x x = Js.ToInt32 x.
Proof. unfold Js.band. rewrite Z.land_diag. apply ToInt32_idem. Qed.

Lemma ToInt32_congr (x y k : Z) :
  x = y + k * 2 ^ 32 -> Js.ToInt32 x = Js.ToInt32 y.
Proof.
  intros ->. unfold Js.ToInt32.
  replace (y + k * 2 ^ 32 + 2 ^ 31) with (y + 2 ^ 31 + k * 2 ^ 32) by lia.
  rewrite Z_mod_plus_full. reflexivity.
Qed.

Lemma ToInt32_spec (x : Z) : exists k, Js.ToInt32 x = x + k * 2 ^ 32.
Proof.
  exists (- ((x + 2 ^ 31) / 2 ^ 32)). unfold Js.ToInt32.
  pose proof (Z.div_mod (x + 2 ^ 31) (2 ^ 32)). lia.
Qed.

Lemma ToUint32_congr (x y k : Z) :
  x = y + k * 2 ^ 32 -> Js.ToUint32 x = Js.ToUint32 y.
Proof. intros ->. unfold Js.ToUint32. apply Z_mod_plus_full. Qed.

Lemma ToUint32_spec (x : Z) : exists k, Js.ToUint32 x = x + k * 2 ^ 32.
Proof.
  exists (- (x / 2 ^ 32)). unfold Js.ToUint32.
  pose proof (Z.div_mod x (2 ^ 32)). lia.
Qed.

Lemma shl_5 (h : Z) : Js.shl h 5 = Js.ToInt32 (h * 32).
Proof.
  unfold Js.shl. change (Js.ToUint32 5 mod 32) with 5.
  rewrite Z.shiftl_mul_pow2 by lia. change (2 ^ 5) with 32.
  destruct (ToInt32_spec h) as [k ->].
  apply (ToInt32_congr _ _ (k * 32)). lia.
Qed.

Lemma hashStep_exact (h c : Z) :
  - 2 ^ 31 <= h < 2 ^ 31 -> 0 <= c < 65536 ->
  Script.hashStep h c = Spec.wrap32 (h * 32 - h + c).
Proof.
  intros Hh Hc. unfold Script.hashStep.
  rewrite land_diag_ToInt32, shl_5.
  pose proof (ToInt32_range (h * 32)).
  js_exact.
  destruct (ToInt32_spec (h * 32)) as [k ->].
  apply (ToInt32_congr _ _ k). lia.
Qed.

Lemma fold_left_step {A B : Type} (f : A -> B -> A) (c : B) (s : list B) (h : A) :
  fold_left f (c :: s) h = fold_left f s (f h c).
Proof. reflexivity. Qed.

Lemma fold_hashStep (s : Js.str) :
  Js.wf_str s -> forall h, - 2 ^ 31 <= h < 2 ^ 31 ->
  fold_left Script.hashStep s h =
  fold_left (fun hash charCode => Spec.wrap32 (hash * 32 - hash + charCode)) s h.
Proof.
  unfold Js.wf_str.
  induction s as [| c s IH]; intros Hwf h Hh.
  - reflexivity.
  - apply Forall_cons_iff in Hwf as [Hc Hs].
    rewrite !fold_left_step.
    rewrite <- (hashStep_exact h c Hh Hc).
    apply (IH Hs). apply hashStep_int32.
Qed.

Lemma fold_hashStep_int32 (s : Js.str) :
  forall h, - 2 ^ 31 <= h < 2 ^ 31 ->
  - 2 ^ 31 <= fold_left Script.hashStep s h < 2 ^ 31.
Proof.
  induction s as [| c s IH]; intros h Hh.
  - exact Hh.
  - rewrite fold_left_step. apply IH, hashStep_int32.
Qed.

Lemma stringToHash_bound (s : Js.str) : 0 <= Script.stringToHash s <= 2 ^ 31.
Proof.
  unfold Script.stringToHash, Js.abs.
  pose proof (fold_hashStep_int32 s 0). lia.
Qed.

(** C4 (amended).  For every string of UTF-16 code units, [stringToHash]
    walks the code units in order, accumulates with
    [hash = hash*32 - hash + charCode] (the code's [(hash << 5) - hash + char],
    that is [hash*31 + charCode]), truncates to a 32-bit two's-complement
    integer at each step and returns the absolute value of the accumulator,
    which is not negative. *)
Theorem stringToHash_recurrence (id : Js.str) :
  Js.wf_str id ->
  Script.stringToHash id = hash31 id /\ 0 <= Script.stringToHash id.
Proof.
  intros Hwf. split.
  - unfold Script.stringToHash, hash31, Js.abs.
    rewrite (fold_hashStep id Hwf 0) by lia. reflexivity.
  - apply stringToHash_bound.
Qed.

Lemma stringToHash_recurrence_witness :
  let id := Js.lit "providerA/slot1" in
  Js.wf_str id /\
  (Script.stringToHash id = hash31 id /\ 0 <= Script.stringToHash id).
Proof.
  intros id.
  assert (W : Js.wf_str id).
  { unfold Js.wf_str, id, Js.lit. cbn. repeat constructor; lia. }
  split; [exact W | exact (stringToHash_recurrence id W)].
Defined.

(** C4 as worded ([hash*31 - hash + charCode], that is [hash*30 + charCode])
    differs from the code on the two-character string "ab". *)
Lemma hashId_wording_differs :
  Script.stringToHash (Js.lit "ab") = 3105 /\
  Spec.hashId (Js.lit "ab") = 3008 /\
  Script.stringToHash (Js.lit "ab") <> Spec.hashId (Js.lit "ab").
Proof.
  split; [vm_compute; reflexivity |].
  split; [vm_compute; reflexivity |].
  vm_compute. discriminate.
Qed.

(** ** Tier classification *)

(** C9.  The tier is a function of the RTP integer alone: "low" exactly
    below 50, "medium" exactly from 50 to 69, "high" exactly from 70. *)
Theorem getRTPColorClass_tiers (r : Z) :
  (Script.getRTPColorClass r = "low" <-> r < 50) /\
  (Script.getRTPColorClass r = "medium" <-> 50 <= r < 70) /\
  (Script.getRTPColorClass r = "high" <-> 70 <= r).
Proof.
  unfold Script.getRTPColorClass.
  destruct (Z.leb_spec 70 r) as [H70 | H70];
    [| destruct (Z.leb_spec 50 r) as [H50 | H50]];
    (split; [| split]); (split; intros H);
    solve [discriminate H | reflexivity | lia].
Qed.

(** ** The time quantizer is monotone inside a month, not across 31-day
    months *)

(** C8 (amended).  For two valid timestamps with [a] earlier than [b] in
    local calendar time, that lie in the same month of the same year or
    have [a] on a day of the month not above 30, the epoch minute of [a] is
    at most that of [b], and strictly below it when they fall in different
    minutes. *)
Theorem getTimeSeed_monotone (a b : Date) :
  valid_date a -> valid_date b -> earlier a b ->
  (getFullYear a = getFullYear b /\ getMonth a = getMonth b) \/ getDate a <= 30 ->
  Script.getTimeSeed a <= Script.getTimeSeed b /\
  (~ same_minute a b -> Script.getTimeSeed a < Script.getTimeSeed b).
Proof.
  intros Ha Hb Hlt Hd.
  rewrite (getTimeSeed_exact a Ha), (getTimeSeed_exact b Hb).
  unfold valid_date, earlier, earlier_minute, same_minute, weightedMinutes in *.
  destruct a as [y1 m1 d1 h1 mi1 s1 ms1], b as [y2 m2 d2 h2 mi2 s2 ms2].
  cbn [getFullYear getMonth getDate getHours getMinutes getSeconds getMilliseconds] in *.
  lia.
Qed.

Lemma getTimeSeed_monotone_witness :
  let a := mkDate 2024 0 30 23 59 59 999 in
  let b := mkDate 2024 1 1 0 0 0 0 in
  valid_date a /\ valid_date b /\ earlier a b /\ getDate a <= 30 /\
  (Script.getTimeSeed a <= Script.getTimeSeed b /\
   (~ same_minute a b -> Script.getTimeSeed a < Script.getTimeSeed b)).
Proof.
  intros a b.
  assert (Va : valid_date a) by (unfold valid_date, a; cbn; lia).
  assert (Vb : valid_date b) by (unfold valid_date, b; cbn; lia).
  assert (E : earlier a b) by (unfold earlier, earlier_minute, a, b; cbn; lia).
  assert (D : getDate a <= 30) by (unfold a; cbn; lia).
  repeat (split; [assumption |]).
  exact (getTimeSeed_monotone a b Va Vb E (or_intror D)).
Defined.

(** C8 as stated fails at the end of a 31-day month and at the end of the
    year: one minute later the epoch minute is 839 lower. *)
Lemma getTimeSeed_not_monotone :
  let jan31 := mkDate 2024 0 31 23 59 0 0 in
  let feb01 := mkDate 2024 1 1 0 0 0 0 in
  let dec31 := mkDate 2023 11 31 23 59 0 0 in
  let jan01 := mkDate 2024 0 1 0 0 0 0 in
  (valid_date jan31 /\ valid_date feb01 /\ earlier jan31 feb01 /\
   ~ Script.getTimeSeed jan31 <= Script.getTimeSeed feb01) /\
  (valid_date dec31 /\ valid_date jan01 /\ earlier dec31 jan01 /\
   ~ Script.getTimeSeed dec31 <= Script.getTimeSeed jan01).
Proof.
  cbv zeta.
  assert (E1 : Script.getTimeSeed (mkDate 2024 0 31 23 59 0 0) = 1063860479)
    by (vm_compute; reflexivity).
  assert (E2 : Script.getTimeSeed (mkDate 2024 1 1 0 0 0 0) = 1063859640)
    by (vm_compute; reflexivity).
  assert (E3 : Script.getTimeSeed (mkDate 2023 11 31 23 59 0 0) = 1063816679)
    by (vm_compute; reflexivity).
  assert (E4 : Script.getTimeSeed (mkDate 2024 0 1 0 0 0 0) = 1063815840)
    by (vm_compute; reflexivity).
  rewrite E1, E2, E3, E4.
  unfold valid_date, earlier, earlier_minute, same_minute.
  cbn [getFullYear getMonth getDate getHours getMinutes getSeconds getMilliseconds].
  lia.
Qed.

(** ** The mixer and the range helper *)

Lemma seededRandomBits_range (seed : Z) :
  0 <= Script.seededRandomBits seed < 2 ^ 32.
Proof.
  unfold Script.seededRandomBits. cbv zeta.
  rewrite ushr_0. apply ToUint32_range.
Qed.

Lemma floor_neg32 (m : Z) : Js.floor (Js.Dyadic m (-32)) = m / 2 ^ 32.
Proof. reflexivity. Qed.

Lemma getSeededRandomInt_range (seed mn mx : Z) :
  - 2 ^ 19 <= mn -> mn <= mx -> mx <= 2 ^ 19 ->
  mn <= Script.getSeededRandomInt seed mn mx <= mx.
Proof.
  intros Hlo Hle Hhi.
  unfold Script.getSeededRandomInt, Script.seededRandom, Js.div4294967296.
  cbv zeta.
  pose proof (seededRandomBits_range (Script.lcgStep seed)) as Hu.
  set (u := Script.seededRandomBits (Script.lcgStep seed)) in *.
  rewrite (sub_exact mx mn) by lia.
  rewrite (add_exact (mx - mn) 1) by lia.
  remember (mx - mn + 1) as k eqn:Ek.
  assert (Hk : 1 <= k <= 2 ^ 20 + 1) by lia.
  clearbody u.
  assert (Huk : 0 <= u * k <= (2 ^ 32 - 1) * k).
  { split; [apply Z.mul_nonneg_nonneg; lia |].
    apply Z.mul_le_mono_nonneg_r; lia. }
  rewrite mulInt_exact; cbn [Js.mant Js.expo]; [| lia].
  rewrite floor_neg32.
  assert (Hq : 0 <= u * k / 2 ^ 32 < k).
  { split; [apply Z.div_pos; lia |].
    apply Z.div_lt_upper_bound; lia. }
  rewrite add_exact by lia.
  lia.
Qed.

(** C7.  For every game identifier and every timestamp the RTP lies in the
    configured inclusive range, which is 30..99. *)
Theorem generateRandomRTP_range (gameId : GameId) (now : Date) :
  Script.min (Script.rtpRanges Script.CONFIG) <= Script.generateRandomRTP gameId now
    <= Script.max (Script.rtpRanges Script.CONFIG) /\
  30 <= Script.generateRandomRTP gameId now <= 99.
Proof.
  unfold Script.generateRandomRTP. cbv zeta.
  change (Script.min (Script.rtpRanges Script.CONFIG)) with 30.
  change (Script.max (Script.rtpRanges Script.CONFIG)) with 99.
  split; apply getSeededRandomInt_range; lia.
Qed.

(** ** Seed composition *)

Lemma combinedSeed_exact (g : Js.str) (t : Date) :
  valid_date t ->
  Script.getTimeSeed t *! 1000 +! Script.stringToHash g = baseSeed g t /\
  Z.abs (baseSeed g t) < 2 ^ 49.
Proof.
  intros Ht. rewrite (getTimeSeed_exact t Ht). unfold baseSeed.
  pose proof (weightedMinutes_bound t Ht) as Hw.
  pose proof (stringToHash_bound g) as Hh.
  js_exact. split; [reflexivity | lia].
Qed.

(** C2.  For every game identifier string and valid timestamp, the RTP is
    the range helper applied to the seed [epochMinute*1000 + hash], formed
    without rounding, and the configured bounds 30 and 99. *)
Theorem generateRandomRTP_seed (g : Js.str) (t : Date) :
  valid_date t ->
  Script.generateRandomRTP (IdString g) t =
    Script.getSeededRandomInt
      (Script.getTimeSeed t * 1000 + Script.stringToHash g)
      (Script.min (Script.rtpRanges Script.CONFIG))
      (Script.max (Script.rtpRanges Script.CONFIG)).
Proof.
  intros Ht. unfold Script.generateRandomRTP, Script.gameNumericId. cbv zeta.
  destruct (combinedSeed_exact g t Ht) as [-> _].
  unfold baseSeed. rewrite (getTimeSeed_exact t Ht). reflexivity.
Qed.

Lemma generateRandomRTP_seed_witness :
  let t := mkDate 2024 0 15 10 30 0 0 in
  let g := Js.lit "pragmatic/gates-of-olympus" in
  valid_date t /\
  Script.generateRandomRTP (IdString g) t =
    Script.getSeededRandomInt
      (Script.getTimeSeed t * 1000 + Script.stringToHash g)
      (Script.min (Script.rtpRanges Script.CONFIG))
      (Script.max (Script.rtpRanges Script.CONFIG)).
Proof.
  intros t g.
  assert (V : valid_date t) by (unfold valid_date, t; cbn; lia).
  split; [exact V | exact (generateRandomRTP_seed g t V)].
Defined.

Lemma index_in_range {A : Type} (l : list A) (i : Z) :
  0 <= i < Z.of_nat (List.length l) ->
  exists x, nth_error l (Z.to_nat i) = Some x /\ Js.index l i = Some x.
Proof.
  intros Hi. unfold Js.index.
  destruct (Z.ltb_spec i 0) as [Hneg | _]; [lia |].
  destruct (nth_error l (Z.to_nat i)) as [x |] eqn:E.
  - exists x. split; reflexivity.
  - apply nth_error_None in E. lia.
Qed.

(** C6.  For every game identifier string and valid timestamp, the
    multiplier entry is the table entry at index
    [seededInt (base*7, 0, tableLength-1)] with
    [base = epochMinute*1000 + hash], and the text is "Manual" when
    [seededInt (base*11, 0, 1)] is 1 and "Auto" when it is 0. *)
Theorem generateRandomMultiplier_selection (g : Js.str) (t : Date) :
  valid_date t ->
  let base := Script.getTimeSeed t * 1000 + Script.stringToHash g in
  let table := Script.multipliers Script.CONFIG in
  let index := Script.getSeededRandomInt (base * 7) 0 (Z.of_nat (List.length table) - 1) in
  let label := Script.getSeededRandomInt (base * 11) 0 1 in
  (label = 0 \/ label = 1) /\
  exists entry,
    nth_error table (Z.to_nat index) = Some entry /\
    Script.generateRandomMultiplier (IdString g) t =
      Some {| Script.r_value := Script.value entry;
              Script.r_type := Script.type entry;
              Script.r_text := if label =? 1 then "Manual" else "Auto" |}.
Proof.
  intros Ht base table index label.
  assert (Hl : 0 <= label <= 1) by (apply getSeededRandomInt_range; lia).
  split; [lia |].
  assert (Hi : 0 <= index <= 8).
  { unfold index. change (Z.of_nat (List.length table) - 1) with 8.
    apply getSeededRandomInt_range; lia. }
  destruct (index_in_range table index) as (entry & Hnth & Hidx).
  { change (Z.of_nat (List.length table)) with 9. lia. }
  exists entry. split; [exact Hnth |].
  unfold Script.generateRandomMultiplier, Script.gameNumericId. cbv zeta.
  destruct (combinedSeed_exact g t Ht) as [-> Hb].
  change (Z.of_nat (List.length (Script.multipliers Script.CONFIG))) with 9.
  rewrite (sub_exact 9 1) by lia.
  rewrite (mul_exact (baseSeed g t) 7), (mul_exact (baseSeed g t) 11) by lia.
  assert (Eb : baseSeed g t = base).
  { unfold baseSeed, base. rewrite (getTimeSeed_exact t Ht). reflexivity. }
  rewrite Eb. change (9 - 1) with 8.
  fold table. 
  change (Script.getSeededRandomInt (base * 7) 0 8) with index.
  rewrite Hidx. reflexivity.
Qed.

Lemma generateRandomMultiplier_selection_witness :
  let t := mkDate 2024 0 15 10 30 0 0 in
  let g := Js.lit "pragmatic/gates-of-olympus" in
  let base := Script.getTimeSeed t * 1000 + Script.stringToHash g in
  let table := Script.multipliers Script.CONFIG in
  let index := Script.getSeededRandomInt (base * 7) 0 (Z.of_nat (List.length table) - 1) in
  let label := Script.getSeededRandomInt (base * 11) 0 1 in
  valid_date t /\
  ((label = 0 \/ label = 1) /\
   exists entry,
     nth_error table (Z.to_nat index) = Some entry /\
     Script.generateRandomMultiplier (IdString g) t =
       Some {| Script.r_value := Script.value entry;
               Script.r_type := Script.type entry;
               Script.r_text := if label =? 1 then "Manual" else "Auto" |}).
Proof.
  intros t g.
  assert (V : valid_date t) by (unfold valid_date, t; cbn; lia).
  split; [exact V | exact (generateRandomMultiplier_selection g t V)].
Defined.

(** ** Determinism inside a minute *)

(** The displayed pair depends on the timestamp through the epoch minute
    only. *)
Lemma display_from_epoch_minute (gameId : GameId) (t1 t2 : Date) :
  Script.getTimeSeed t1 = Script.getTimeSeed t2 ->
  Script.generateRandomRTP gameId t1 = Script.generateRandomRTP gameId t2 /\
  Script.generateRandomMultiplier gameId t1 = Script.generateRandomMultiplier gameId t2.
Proof.
  intros E.
  unfold Script.generateRandomRTP, Script.generateRandomMultiplier.
  rewrite E. split; reflexivity.
Qed.

(** C1.  For every game identifier string and two timestamps in the same
    local calendar minute, the RTP and the multiplier descriptor are equal:
    both are functions of the epoch minute and the identifier. *)
Theorem display_deterministic (g : Js.str) (t1 t2 : Date) :
  same_minute t1 t2 ->
  Script.generateRandomRTP (IdString g) t1 = Script.generateRandomRTP (IdString g) t2 /\
  Script.generateRandomMultiplier (IdString g) t1 =
    Script.generateRandomMultiplier (IdString g) t2.
Proof.
  intros H. apply display_from_epoch_minute, getTimeSeed_same_minute, H.
Qed.

Lemma display_deterministic_witness :
  let g := Js.lit "pragmatic/gates-of-olympus" in
  let t1 := mkDate 2024 0 15 10 30 0 0 in
  let t2 := mkDate 2024 0 15 10 30 45 0 in
  same_minute t1 t2 /\
  (Script.generateRandomRTP (IdString g) t1 = Script.generateRandomRTP (IdString g) t2 /\
   Script.generateRandomMultiplier (IdString g) t1 =
     Script.generateRandomMultiplier (IdString g) t2).
Proof.
  intros g t1 t2.
  assert (M : same_minute t1 t2) by (unfold same_minute, t1, t2; cbn; repeat split).
  split; [exact M | exact (display_deterministic g t1 t2 M)].
Defined.

(** ** The two variants *)

Lemma variant_getTimeSeed (now : Date) :
  Part000.getTimeSeed now = Script.getTimeSeed now.
Proof. unfold Part000.getTimeSeed, Script.getTimeSeed. reflexivity. Qed.

Lemma variant_seededRandom (seed : Z) :
  Part000.seededRandom seed = Script.seededRandom seed.
Proof.
  unfold Part000.seededRandom, Script.seededRandom.
  unfold Part000.seededRandomBits, Script.seededRandomBits. reflexivity.
Qed.

Lemma variant_getSeededRandomInt (seed mn mx : Z) :
  Part000.getSeededRandomInt seed mn mx = Script.getSeededRandomInt seed mn mx.
Proof.
  unfold Part000.getSeededRandomInt, Script.getSeededRandomInt, Script.lcgStep.
  cbv zeta. rewrite variant_seededRandom. reflexivity.
Qed.

Lemma variant_stringToHash (str : Js.str) :
  Part000.stringToHash str = Script.stringToHash str.
Proof.
  unfold Part000.stringToHash, Script.stringToHash, Script.hashStep.
  reflexivity.
Qed.

Lemma variant_gameNumericId (gameId : GameId) :
  Part000.gameNumericId gameId = Script.gameNumericId gameId.
Proof. destruct gameId; [apply variant_stringToHash | reflexivity]. Qed.

Lemma index_map {A B : Type} (f : A -> B) (l : list A) (i : Z) :
  Js.index (List.map f l) i = option_map f (Js.index l i).
Proof.
  unfold Js.index. destruct (i <? 0); [reflexivity |].
  apply nth_error_map.
Qed.

Lemma variant_table :
  List.map (fun m => (Part000.value m, Part000.type m)) (Part000.multipliers Part000.CONFIG) =
  List.map (fun m => (Script.value m, Script.type m)) (Script.multipliers Script.CONFIG).
Proof. reflexivity. Qed.

(** C10.  For every game identifier and timestamp the variant without the
    Manual/Auto text returns the same multiplier value and tier and the same
    RTP as [src/script.js]. *)
Theorem variants_agree (gameId : GameId) (now : Date) :
  option_map (fun r => (Part000.r_value r, Part000.r_type r))
    (Part000.generateRandomMultiplier gameId now) =
  option_map (fun r => (Script.r_value r, Script.r_type r))
    (Script.generateRandomMultiplier gameId now) /\
  Part000.generateRandomRTP gameId now = Script.generateRandomRTP gameId now.
Proof.
  split.
  - unfold Part000.generateRandomMultiplier, Script.generateRandomMultiplier.
    cbv zeta.
    rewrite variant_getTimeSeed, variant_gameNumericId, variant_getSeededRandomInt.
    change (List.length (Part000.multipliers Part000.CONFIG))
      with (List.length (Script.multipliers Script.CONFIG)).
    set (i := Script.getSeededRandomInt _ 0 _).
    pose proof (index_map (fun m => (Part000.value m, Part000.type m))
                  (Part000.multipliers Part000.CONFIG) i) as E1.
    pose proof (index_map (fun m => (Script.value m, Script.type m))
                  (Script.multipliers Script.CONFIG) i) as E2.
    rewrite variant_table, E2 in E1.
    destruct (Js.index (Part000.multipliers Part000.CONFIG) i) as [p |],
             (Js.index (Script.multipliers Script.CONFIG) i) as [q |];
      cbn in E1 |- *; congruence.
  - unfold Part000.generateRandomRTP, Script.generateRandomRTP. cbv zeta.
    rewrite variant_getTimeSeed, variant_gameNumericId, variant_getSeededRandomInt.
    reflexivity.
Qed.

(** ** The pre-scramble is computed in double precision *)

(** C5 (amended).  For a seed that is not negative and has
    [seed*9301 + 49297] below 2^53, every intermediate value of the
    pre-scramble is an exact double and the step computes the exact integer
    [(seed*9301 + 49297) mod 233280]. *)
Theorem lcgStep_exact (seed : Z) :
  0 <= seed -> seed * 9301 + 49297 < 2 ^ 53 ->
  Script.lcgStep seed = Spec.preScramble seed.
Proof.
  intros H0 H53. unfold Script.lcgStep, Spec.preScramble.
  js_exact. unfold Js.rem. apply Z.rem_mod_nonneg; lia.
Qed.

Lemma lcgStep_exact_witness :
  let seed := Script.getTimeSeed (mkDate 1800 0 15 10 30 0 0) * 1000 +
              Script.stringToHash (Js.lit "pragmatic/gates-of-olympus") in
  0 <= seed /\ seed * 9301 + 49297 < 2 ^ 53 /\
  Script.lcgStep seed = Spec.preScramble seed.
Proof.
  intros seed.
  assert (H0 : 0 <= seed) by (vm_compute; discriminate).
  assert (H53 : seed * 9301 + 49297 < 2 ^ 53) by (vm_compute; reflexivity).
  split; [exact H0 | split; [exact H53 | exact (lcgStep_exact seed H0 H53)]].
Defined.

(** C5 as stated fails on the seed that [generateRandomRTP] passes for
    "pragmatic/gates-of-olympus" at 2024-01-15 10:30: the product
    [seed*9301] is above 2^53 and is rounded to an even integer, and so is
    the sum. *)
Lemma lcgStep_rounds :
  let t := mkDate 2024 0 15 10 30 0 0 in
  let g := Js.lit "pragmatic/gates-of-olympus" in
  let seed := Script.getTimeSeed t *! 1000 +! Script.stringToHash g in
  seed = 1063929634361 /\
  seed *! 9301 = 9895609529191660 /\ seed * 9301 = 9895609529191661 /\
  Script.lcgStep seed = 194236 /\ Spec.preScramble seed = 194238 /\
  Script.lcgStep seed <> Spec.preScramble seed.
Proof.
  cbv zeta. repeat split; try (vm_compute; reflexivity).
  vm_compute. discriminate.
Qed.

(** ** The mixer against the four documented steps *)

Lemma lxor_mod_pow2 (a b n : Z) :
  0 <= n -> Z.lxor a b mod 2 ^ n = Z.lxor (a mod 2 ^ n) (b mod 2 ^ n).
Proof.
  intros Hn. apply Z.bits_inj'. intros i Hi.
  rewrite Z.lxor_spec.
  destruct (Z.lt_ge_cases i n) as [Hlt | Hge].
  - rewrite !Z.mod_pow2_bits_low by lia. apply Z.lxor_spec.
  - rewrite !Z.mod_pow2_bits_high by lia. reflexivity.
Qed.

Lemma lor_mod_pow2 (a b n : Z) :
  0 <= n -> Z.lor a b mod 2 ^ n = Z.lor (a mod 2 ^ n) (b mod 2 ^ n).
Proof.
  intros Hn. apply Z.bits_inj'. intros i Hi.
  rewrite Z.lor_spec.
  destruct (Z.lt_ge_cases i n) as [Hlt | Hge].
  - rewrite !Z.mod_pow2_bits_low by lia. apply Z.lor_spec.
  - rewrite !Z.mod_pow2_bits_high by lia. reflexivity.
Qed.

Lemma ToUint32_bxor (a b : Z) :
  Js.ToUint32 (Js.bxor a b) = Z.lxor (Js.ToUint32 a) (Js.ToUint32 b).
Proof.
  unfold Js.bxor. rewrite ToUint32_ToInt32.
  unfold Js.ToUint32 at 1. rewrite lxor_mod_pow2 by lia.
  fold (Js.ToUint32 (Js.ToInt32 a)). fold (Js.ToUint32 (Js.ToInt32 b)).
  rewrite !ToUint32_ToInt32. reflexivity.
Qed.

Lemma ToUint32_bor (a b : Z) :
  Js.ToUint32 (Js.bor a b) = Z.lor (Js.ToUint32 a) (Js.ToUint32 b).
Proof.
  unfold Js.bor. rewrite ToUint32_ToInt32.
  unfold Js.ToUint32 at 1. rewrite lor_mod_pow2 by lia.
  fold (Js.ToUint32 (Js.ToInt32 a)). fold (Js.ToUint32 (Js.ToInt32 b)).
  rewrite !ToUint32_ToInt32. reflexivity.
Qed.

Lemma ToUint32_imul (a b : Z) :
  Js.ToUint32 (Js.imul a b) = (Js.ToUint32 a * Js.ToUint32 b) mod 2 ^ 32.
Proof.
  unfold Js.imul. rewrite ToUint32_ToInt32.
  destruct (ToInt32_spec a) as [ka ->], (ToInt32_spec b) as [kb ->].
  destruct (ToUint32_spec a) as [ja ->], (ToUint32_spec b) as [jb ->].
  fold (Js.ToUint32 ((a + ja * 2 ^ 32) * (b + jb * 2 ^ 32))).
  apply (ToUint32_congr _ _
           (ka * b + a * kb + ka * kb * 2 ^ 32
            - ja * b - a * jb - ja * jb * 2 ^ 32)).
  ring.
Qed.

Lemma ToUint32_plus (a b : Z) :
  Js.ToUint32 (a + b) = (Js.ToUint32 a + Js.ToUint32 b) mod 2 ^ 32.
Proof. unfold Js.ToUint32. apply Zplus_mod. Qed.

Lemma ToUint32_small (x : Z) : 0 <= x < 2 ^ 32 -> Js.ToUint32 x = x.
Proof. intros H. unfold Js.ToUint32. apply Z.mod_small, H. Qed.

Lemma ushr_const (a n : Z) :
  0 <= n < 32 -> Js.ushr a n = Z.shiftr (Js.ToUint32 a) n.
Proof.
  intros Hn. unfold Js.ushr.
  rewrite (ToUint32_small n) by lia.
  rewrite (Z.mod_small n 32) by lia. reflexivity.
Qed.

Lemma ToUint32_ushr (a n : Z) :
  0 <= n < 32 -> Js.ToUint32 (Js.ushr a n) = Z.shiftr (Js.ToUint32 a) n.
Proof.
  intros Hn. rewrite (ushr_const a n Hn).
  apply ToUint32_small.
  pose proof (ToUint32_range a) as Ha.
  rewrite Z.shiftr_div_pow2 by lia.
  assert (0 < 2 ^ n) by (apply Z.pow_pos_nonneg; lia).
  split; [apply Z.div_pos; lia |].
  apply Z.div_lt_upper_bound; [lia |]. nia.
Qed.

Lemma imul_int32 (a b : Z) : - 2 ^ 31 <= Js.imul a b < 2 ^ 31.
Proof. apply ToInt32_range. Qed.

Lemma bxor_int32 (a b : Z) : - 2 ^ 31 <= Js.bxor a b < 2 ^ 31.
Proof. apply ToInt32_range. Qed.

Lemma mix_round1 (s : Z) :
  Js.ToUint32 (Js.imul (Js.bxor s (Js.ushr s 15)) (Js.bor s 1)) =
  (Z.lxor (Js.ToUint32 s) (Z.shiftr (Js.ToUint32 s) 15) * Z.lor (Js.ToUint32 s) 1)
    mod 2 ^ 32.
Proof.
  rewrite ToUint32_imul, ToUint32_bxor, ToUint32_bor, ToUint32_ushr by lia.
  reflexivity.
Qed.

Lemma mix_round2 (t : Z) :
  - 2 ^ 31 <= t < 2 ^ 31 ->
  Js.ToUint32 (Js.bxor t (t +! Js.imul (Js.bxor t (Js.ushr t 7)) (Js.bor t 61))) =
  Z.lxor (Js.ToUint32 t)
    ((Js.ToUint32 t +
      (Z.lxor (Js.ToUint32 t) (Z.shiftr (Js.ToUint32 t) 7) * Z.lor (Js.ToUint32 t) 61)
        mod 2 ^ 32) mod 2 ^ 32).
Proof.
  intros Ht.
  pose proof (imul_int32 (Js.bxor t (Js.ushr t 7)) (Js.bor t 61)) as Hm.
  rewrite add_exact by lia.
  rewrite ToUint32_bxor, ToUint32_plus, ToUint32_imul.
  rewrite ToUint32_bxor, ToUint32_bor, ToUint32_ushr by lia.
  reflexivity.
Qed.

Lemma mix_output (t : Z) :
  Js.ushr (Js.bxor t (Js.ushr t 14)) 0 =
  Z.lxor (Js.ToUint32 t) (Z.shiftr (Js.ToUint32 t) 14).
Proof.
  rewrite ushr_0, ToUint32_bxor, ToUint32_ushr by lia. reflexivity.
Qed.

Lemma bor_0 (x : Z) : Js.bor x 0 = Js.ToInt32 x.
Proof.
  unfold Js.bor. change (Js.ToInt32 0) with 0.
  rewrite Z.lor_0_r. apply ToInt32_idem.
Qed.

(** The code's mixer is the four documented steps applied to the absolute
    value of the seed truncated to a signed 32-bit integer. *)
Lemma seededRandomBits_steps (seed : Z) :
  Script.seededRandomBits seed = Spec.rngBits (Z.abs (Js.ToInt32 seed)).
Proof.
  unfold Script.seededRandomBits, Spec.rngBits, Js.abs. cbv zeta.
  rewrite bor_0.
  pose proof (ToInt32_range seed) as Hs.
  remember (Z.abs (Js.ToInt32 seed)) as s0 eqn:Es0.
  rewrite (add_exact s0 0x6D2B79F5) by lia.
  remember (s0 + 0x6D2B79F5) as s1 eqn:Es1.
  fold (Js.ToUint32 s1).
  rewrite mix_output.
  rewrite mix_round2 by apply imul_int32.
  rewrite mix_round1.
  reflexivity.
Qed.

(** C3 (amended).  For every integer seed, [seededRandom] first replaces
    the seed by the absolute value of its signed 32-bit truncation
    ([Math.abs(seed | 0)]) and then applies the four documented mulberry32
    steps to it; the result is a number in [0,1). *)
Theorem seededRandom_steps (seed : Z) :
  Script.seededRandom seed = Spec.rngValue (Z.abs (Js.ToInt32 seed)) /\
  (0 <= Js.value (Script.seededRandom seed) < 1)%Q.
Proof.
  unfold Script.seededRandom, Spec.rngValue, Js.div4294967296.
  split.
  - rewrite seededRandomBits_steps. reflexivity.
  - pose proof (seededRandomBits_range seed) as Hu.
    unfold Js.value. cbn [Js.expo Js.mant Z.leb Z.compare Z.opp].
    change (Z.to_pos (2 ^ 32)) with 4294967296%positive.
    unfold Qle, Qlt. cbn [Qnum Qden]. lia.
Qed.

(** On seeds from 0 to 2^31 - 1 the code is the four steps on the seed
    itself; these include every scrambled seed in 0..233279. *)
Lemma seededRandom_on_small_seeds (seed : Z) :
  0 <= seed < 2 ^ 31 -> Script.seededRandom seed = Spec.rngValue seed.
Proof.
  intros H. unfold Script.seededRandom, Spec.rngValue, Js.div4294967296.
  rewrite seededRandomBits_steps.
  rewrite ToInt32_small by lia. rewrite Z.abs_eq by lia. reflexivity.
Qed.

(** C3 as stated fails on the seed -1 (and on 4294967295, the same 32-bit
    pattern): the code mixes the seed 1. *)
Lemma seededRandom_abs_first :
  Script.seededRandomBits (-1) = 2693262067 /\
  Spec.rngBits (-1) = 3850105811 /\
  Script.seededRandom (-1) <> Spec.rngValue (-1) /\
  Script.seededRandom 4294967295 <> Spec.rngValue 4294967295.
Proof.
  repeat split; try (vm_compute; reflexivity); vm_compute; discriminate.
Qed.

(** * Further properties of the code *)

(** ** The hasher *)

Lemma wrap32_ToInt32 (x : Z) : Spec.wrap32 x = Js.ToInt32 x.
Proof. unfold Spec.wrap32, Js.ToInt32. reflexivity. Qed.

Lemma fold_wrap_horner (s : Js.str) :
  forall h h', h = Js.ToInt32 h' ->
  fold_left (fun hash charCode => Spec.wrap32 (hash * 32 - hash + charCode)) s h =
  Js.ToInt32 (fold_left (fun h c => h * 31 + c) s h').
Proof.
  induction s as [| c s IH]; intros h h' Hh.
  - exact Hh.
  - rewrite !fold_left_step. apply IH.
    rewrite wrap32_ToInt32, Hh.
    destruct (ToInt32_spec h') as [k ->].
    apply (ToInt32_congr _ _ (k * 31)). lia.
Qed.

(** X1.  Truncating at every step is truncating once: the hash of a string
    of code units is the absolute value of the 32-bit truncation of the
    polynomial [c0*31^(n-1) + ... + c(n-1)] in the code units. *)
Theorem stringToHash_horner (s : Js.str) :
  Js.wf_str s ->
  Script.stringToHash s = Z.abs (Js.ToInt32 (hashHorner s)).
Proof.
  intros Hwf. unfold Script.stringToHash, hashHorner, Js.abs.
  rewrite (fold_hashStep s Hwf 0) by lia.
  rewrite (fold_wrap_horner s 0 0) by reflexivity.
  reflexivity.
Qed.

Lemma stringToHash_horner_witness :
  let s := Js.lit "providerA/slot1" in
  Js.wf_str s /\ Script.stringToHash s = Z.abs (Js.ToInt32 (hashHorner s)).
Proof.
  intros s.
  assert (W : Js.wf_str s).
  { unfold Js.wf_str, s, Js.lit. cbn. repeat constructor; lia. }
  split; [exact W | exact (stringToHash_horner s W)].
Defined.

(** X2.  The hash lies between 0 and 2^31 inclusive, and 2^31, which is not
    a signed 32-bit integer, is reached: [Math.abs] of -2^31. *)
Theorem stringToHash_range_tight :
  (forall s, 0 <= Script.stringToHash s <= 2 ^ 31) /\
  (exists s, Js.wf_str s /\ Script.stringToHash s = 2 ^ 31).
Proof.
  split; [apply stringToHash_bound |].
  exists (Js.lit "polygenelubricants"). split.
  - unfold Js.wf_str, Js.lit. cbn. repeat constructor; lia.
  - vm_compute. reflexivity.
Qed.

(** ** The mixer *)

Lemma abs_ToInt32_opp (x : Z) : Z.abs (Js.ToInt32 (- x)) = Z.abs (Js.ToInt32 x).
Proof.
  pose proof (ToInt32_range x) as R1. pose proof (ToInt32_range (- x)) as R2.
  destruct (ToInt32_spec x) as [k E1], (ToInt32_spec (- x)) as [k' E2].
  lia.
Qed.

(** X3.  [seededRandom] cannot tell a seed from its negation nor from the
    seed shifted by a multiple of 2^32. *)
Theorem seededRandom_symmetric (seed k : Z) :
  Script.seededRandom (- seed) = Script.seededRandom seed /\
  Script.seededRandom (seed + k * 2 ^ 32) = Script.seededRandom seed.
Proof.
  unfold Script.seededRandom. rewrite !seededRandomBits_steps.
  rewrite abs_ToInt32_opp.
  rewrite (ToInt32_congr (seed + k * 2 ^ 32) seed k) by reflexivity.
  split; reflexivity.
Qed.

(** ** The range helper *)

Lemma rne_shift_nonneg (a s : Z) : 0 <= a -> 0 <= Js.rne_shift a s.
Proof.
  intros Ha. unfold Js.rne_shift.
  pose proof (proj2 (Z.shiftr_nonneg a s) Ha) as Hq.
  destruct (s <=? 0); [exact Ha |].
  destruct (_ <? _); [exact Hq |].
  destruct (_ <? _); [lia |].
  destruct (Z.even _); lia.
Qed.

Lemma fl_nonneg (x : Z) : 0 <= x -> 0 <= Js.fl x.
Proof.
  intros Hx. unfold Js.fl, Js.round_mant.
  apply Z.mul_nonneg_nonneg; [apply Z.mul_nonneg_nonneg |].
  - destruct (Z.sgn_spec x) as [[? ->] | [[? ->] | [? ->]]]; lia.
  - apply rne_shift_nonneg. lia.
  - apply Z.pow_nonneg. lia.
Qed.

(** X4.  For every seed that is not negative, also where the pre-scramble
    is rounded, the scrambled seed lies in 0..233279; [Math.abs(seed | 0)]
    then changes nothing and the value is the four mulberry32 steps applied
    to the scrambled seed. *)
Theorem lcgStep_range (seed : Z) :
  0 <= seed ->
  0 <= Script.lcgStep seed < 233280 /\
  Script.seededRandom (Script.lcgStep seed) = Spec.rngValue (Script.lcgStep seed).
Proof.
  intros H0.
  assert (R : 0 <= Script.lcgStep seed < 233280).
  { unfold Script.lcgStep, Js.rem. apply Z.rem_bound_pos; [| lia].
    apply fl_nonneg.
    assert (0 <= seed *! 9301) by (apply fl_nonneg; lia). lia. }
  split; [exact R |].
  apply seededRandom_on_small_seeds. lia.
Qed.

Lemma lcgStep_range_witness :
  let seed := 1063929634361 in
  0 <= seed /\
  (0 <= Script.lcgStep seed < 233280 /\
   Script.seededRandom (Script.lcgStep seed) = Spec.rngValue (Script.lcgStep seed)).
Proof.
  intros seed.
  assert (H0 : 0 <= seed) by (unfold seed; lia).
  split; [exact H0 | exact (lcgStep_range seed H0)].
Defined.

Lemma getSeededRandomInt_integer (seed mn mx : Z) :
  - 2 ^ 19 <= mn <= 2 ^ 19 -> - 2 ^ 19 <= mx <= 2 ^ 19 ->
  Script.getSeededRandomInt seed mn mx =
    mn + Script.seededRandomBits (Script.lcgStep seed) * (mx - mn + 1) / 2 ^ 32 /\
  - 2 ^ 20 <= Script.seededRandomBits (Script.lcgStep seed) * (mx - mn + 1) / 2 ^ 32
     <= 2 ^ 20.
Proof.
  intros Hmn Hmx.
  unfold Script.getSeededRandomInt, Script.seededRandom, Js.div4294967296.
  cbv zeta.
  pose proof (seededRandomBits_range (Script.lcgStep seed)) as Hu.
  remember (Script.seededRandomBits (Script.lcgStep seed)) as u eqn:Eu.
  rewrite (sub_exact mx mn) by lia.
  rewrite (add_exact (mx - mn) 1) by lia.
  remember (mx - mn + 1) as k eqn:Ek.
  assert (Hk : - 2 ^ 20 <= k <= 2 ^ 20 + 1) by lia.
  assert (Huk : - 2 ^ 52 <= u * k < 2 ^ 52 + 2 ^ 32).
  { destruct (Z.le_gt_cases 0 k) as [Hpos | Hneg].
    - assert (0 <= u * k) by (apply Z.mul_nonneg_nonneg; lia).
      assert (u * k <= (2 ^ 32 - 1) * k)
        by (apply Z.mul_le_mono_nonneg_r; lia).
      lia.
    - assert (u * k <= 0 * k) by (apply Z.mul_le_mono_nonpos_r; lia).
      assert ((2 ^ 32 - 1) * k <= u * k)
        by (apply Z.mul_le_mono_nonpos_r; lia).
      lia. }
  rewrite mulInt_exact; cbn [Js.mant Js.expo]; [| lia].
  rewrite floor_neg32.
  assert (Hq : - 2 ^ 20 <= u * k / 2 ^ 32 <= 2 ^ 20).
  { split.
    - apply Z.div_le_lower_bound; lia.
    - apply Z.lt_succ_r, Z.div_lt_upper_bound; lia. }
  rewrite add_exact by lia.
  split; [lia | exact Hq].
Qed.

(** X5.  For integer bounds [min <= max] between -2^19 and 2^19 and every
    seed, no rounding occurs after the mixer: the result is
    [min + floor (u * (max - min + 1) / 2^32)] for the 32-bit output [u] of
    the mixer, and it lies in [min..max]. *)
Theorem getSeededRandomInt_ordered (seed mn mx : Z) :
  - 2 ^ 19 <= mn -> mn <= mx -> mx <= 2 ^ 19 ->
  Script.getSeededRandomInt seed mn mx =
    mn + Script.seededRandomBits (Script.lcgStep seed) * (mx - mn + 1) / 2 ^ 32 /\
  mn <= Script.getSeededRandomInt seed mn mx <= mx.
Proof.
  intros Hlo Hle Hhi. split.
  - apply getSeededRandomInt_integer; lia.
  - apply getSeededRandomInt_range; assumption.
Qed.

Lemma getSeededRandomInt_ordered_witness :
  - 2 ^ 19 <= 0 /\ 0 <= 8 /\ 8 <= 2 ^ 19 /\
  (Script.getSeededRandomInt 12345 0 8 =
     0 + Script.seededRandomBits (Script.lcgStep 12345) * (8 - 0 + 1) / 2 ^ 32 /\
   0 <= Script.getSeededRandomInt 12345 0 8 <= 8).
Proof.
  assert (H1 : - 2 ^ 19 <= 0) by lia.
  assert (H2 : 0 <= 8) by lia.
  assert (H3 : 8 <= 2 ^ 19) by lia.
  repeat (split; [assumption |]).
  exact (getSeededRandomInt_ordered 12345 0 8 H1 H2 H3).
Defined.

(** X6.  With the bounds the wrong way round, [max < min], the helper
    still returns an integer between them: it lies in [max+1..min], and is
    [min] when [max = min - 1]. *)
Theorem getSeededRandomInt_swapped (seed mn mx : Z) :
  - 2 ^ 19 <= mx -> mx < mn -> mn <= 2 ^ 19 ->
  mx + 1 <= Script.getSeededRandomInt seed mn mx <= mn.
Proof.
  intros Hlo Hlt Hhi.
  destruct (getSeededRandomInt_integer seed mn mx) as [-> _]; [lia | lia |].
  pose proof (seededRandomBits_range (Script.lcgStep seed)) as Hu.
  remember (Script.seededRandomBits (Script.lcgStep seed)) as u eqn:Eu.
  remember (mx - mn + 1) as k eqn:Ek.
  assert (Hk : - 2 ^ 20 <= k <= 0) by lia.
  assert (H1 : u * k <= 0 * k) by (apply Z.mul_le_mono_nonpos_r; lia).
  assert (H2 : (2 ^ 32 - 1) * k <= u * k) by (apply Z.mul_le_mono_nonpos_r; lia).
  assert (Hq : k <= u * k / 2 ^ 32 <= 0).
  { split.
    - apply Z.div_le_lower_bound; lia.
    - apply Z.div_le_upper_bound; lia. }
  lia.
Qed.

Lemma getSeededRandomInt_swapped_witness :
  - 2 ^ 19 <= 3 /\ 3 < 5 /\ 5 <= 2 ^ 19 /\
  3 + 1 <= Script.getSeededRandomInt 5 5 3 <= 5.
Proof.
  assert (H1 : - 2 ^ 19 <= 3) by lia.
  assert (H2 : 3 < 5) by lia.
  assert (H3 : 5 <= 2 ^ 19) by lia.
  repeat (split; [assumption |]).
  exact (getSeededRandomInt_swapped 5 5 3 H1 H2 H3).
Defined.

(** ** The time quantizer and the refresh timer *)

(** X7.  The epoch minutes of day 31 from 10:00 on are used again on the
    first day of the next month, ten hours earlier on the clock: the two
    moments have the same epoch minute, hence the same RTP and multiplier
    for every game. *)
Theorem month_end_repeats (a b : Date) :
  valid_date a -> valid_date b ->
  getDate a = 31 -> first_of_next_month a b ->
  getHours a = getHours b + 10 -> getMinutes a = getMinutes b ->
  Script.getTimeSeed a = Script.getTimeSeed b /\
  forall gameId,
    Script.generateRandomRTP gameId a = Script.generateRandomRTP gameId b /\
    Script.generateRandomMultiplier gameId a = Script.generateRandomMultiplier gameId b.
Proof.
  intros Va Vb Hd Hn Hh Hm.
  assert (E : Script.getTimeSeed a = Script.getTimeSeed b).
  { rewrite (getTimeSeed_exact a Va), (getTimeSeed_exact b Vb).
    unfold first_of_next_month, weightedMinutes in *. lia. }
  split; [exact E |].
  intros gameId. apply display_from_epoch_minute, E.
Qed.

Lemma month_end_repeats_witness :
  let a := mkDate 2024 0 31 10 0 0 0 in
  let b := mkDate 2024 1 1 0 0 0 0 in
  valid_date a /\ valid_date b /\ getDate a = 31 /\ first_of_next_month a b /\
  getHours a = getHours b + 10 /\ getMinutes a = getMinutes b /\
  (Script.getTimeSeed a = Script.getTimeSeed b /\
   forall gameId,
     Script.generateRandomRTP gameId a = Script.generateRandomRTP gameId b /\
     Script.generateRandomMultiplier gameId a = Script.generateRandomMultiplier gameId b).
Proof.
  intros a b.
  assert (Va : valid_date a) by (unfold valid_date, a; cbn; lia).
  assert (Vb : valid_date b) by (unfold valid_date, b; cbn; lia).
  assert (Hd : getDate a = 31) by reflexivity.
  assert (Hn : first_of_next_month a b)
    by (unfold first_of_next_month, a, b; cbn; lia).
  assert (Hh : getHours a = getHours b + 10) by reflexivity.
  assert (Hm : getMinutes a = getMinutes b) by reflexivity.
  repeat (split; [assumption |]).
  exact (month_end_repeats a b Va Vb Hd Hn Hh Hm).
Defined.

(** X8.  The delay until the next refresh is between 1 and 60000
    milliseconds, never 0, and ends exactly on the next minute boundary of
    the local clock. *)
Theorem getTimeUntilNextUpdate_bounds (now : Date) :
  valid_date now ->
  1 <= Script.getTimeUntilNextUpdate now <= 60000 /\
  getSeconds now * 1000 + getMilliseconds now + Script.getTimeUntilNextUpdate now = 60000.
Proof.
  unfold valid_date, Script.getTimeUntilNextUpdate. cbv zeta.
  intros (_ & _ & _ & _ & _ & Hs & Hms).
  js_exact. lia.
Qed.

Lemma getTimeUntilNextUpdate_bounds_witness :
  let now := mkDate 2024 0 15 10 30 59 999 in
  valid_date now /\
  (1 <= Script.getTimeUntilNextUpdate now <= 60000 /\
   getSeconds now * 1000 + getMilliseconds now + Script.getTimeUntilNextUpdate now = 60000).
Proof.
  intros now.
  assert (V : valid_date now) by (unfold valid_date, now; cbn; lia).
  split; [exact V | exact (getTimeUntilNextUpdate_bounds now V)].
Defined.

(** ** The carousel *)

Lemma goToSlide_currentSlide (totalSlides index : Z) (c : Script.Carousel) :
  Script.currentSlide (Script.goToSlide totalSlides index c) =
  (let s := if index <? 0 then totalSlides -! 1 else index in
   if totalSlides <=? s then 0 else s).
Proof. reflexivity. Qed.

Lemma goToSlide_timers (totalSlides index : Z) (c : Script.Carousel) :
  Script.autoSlideInterval (Script.goToSlide totalSlides index c) =
    Some (Js.fresh (Script.timers c)) /\
  Js.running (Script.timers (Script.goToSlide totalSlides index c)) =
    Js.fresh (Script.timers c) ::
    Js.running (Js.clearInterval (Script.autoSlideInterval c) (Script.timers c)) /\
  Js.fresh (Script.timers (Script.goToSlide totalSlides index c)) =
    S (Js.fresh (Script.timers c)).
Proof.
  destruct c as [cs [i |] [run fr]]; repeat split; reflexivity.
Qed.

Lemma goToSlide_slide_ok (totalSlides index : Z) (c : Script.Carousel) :
  1 <= totalSlides < 2 ^ 32 ->
  slide_ok totalSlides (Script.goToSlide totalSlides index c).
Proof.
  intros Ht. unfold slide_ok. rewrite goToSlide_currentSlide. cbv zeta.
  rewrite (sub_exact totalSlides 1) by lia.
  destruct (Z.ltb_spec index 0);
    match goal with |- context [?a <=? ?b] => destruct (Z.leb_spec a b) end; lia.
Qed.

(** X9.  With at least one slide, [goToSlide] leaves a valid slide index
    whatever index it is given, and so does every event from any state. *)
Theorem carousel_slide_in_range (totalSlides : Z) :
  1 <= totalSlides < 2 ^ 32 ->
  (forall index c, slide_ok totalSlides (Script.goToSlide totalSlides index c)) /\
  (forall e c, slide_ok totalSlides c ->
               slide_ok totalSlides (Script.handleEvent totalSlides c e)).
Proof.
  intros Ht. split.
  - intros index c. apply goToSlide_slide_ok, Ht.
  - intros e c Hc. destruct e; cbn [Script.handleEvent];
      unfold Script.nextSlide, Script.prevSlide;
      try (apply goToSlide_slide_ok, Ht); try exact Hc.
    destruct (existsb _ _); [apply goToSlide_slide_ok, Ht | exact Hc].
Qed.

Lemma carousel_slide_in_range_witness :
  1 <= 3 < 2 ^ 32 /\
  ((forall index c, slide_ok 3 (Script.goToSlide 3 index c)) /\
   (forall e c, slide_ok 3 c -> slide_ok 3 (Script.handleEvent 3 c e))).
Proof.
  assert (H : 1 <= 3 < 2 ^ 32) by lia.
  split; [exact H | exact (carousel_slide_in_range 3 H)].
Defined.

Lemma nextSlide_mod (totalSlides : Z) (c : Script.Carousel) :
  1 <= totalSlides < 2 ^ 32 -> slide_ok totalSlides c ->
  Script.currentSlide (Script.nextSlide totalSlides c) =
  (Script.currentSlide c + 1) mod totalSlides.
Proof.
  intros Ht Hc. unfold slide_ok in Hc. unfold Script.nextSlide.
  rewrite goToSlide_currentSlide. cbv zeta.
  rewrite (add_exact (Script.currentSlide c) 1) by lia.
  destruct (Z.ltb_spec (Script.currentSlide c + 1) 0); [lia |].
  destruct (Z.leb_spec totalSlides (Script.currentSlide c + 1)).
  - replace (Script.currentSlide c + 1) with totalSlides by lia.
    symmetry. apply Z_mod_same_full.
  - symmetry. apply Z.mod_small. lia.
Qed.

Lemma prevSlide_mod (totalSlides : Z) (c : Script.Carousel) :
  1 <= totalSlides < 2 ^ 32 -> slide_ok totalSlides c ->
  Script.currentSlide (Script.prevSlide totalSlides c) =
  (Script.currentSlide c - 1) mod totalSlides.
Proof.
  intros Ht Hc. unfold slide_ok in Hc. unfold Script.prevSlide.
  rewrite goToSlide_currentSlide. cbv zeta.
  rewrite (sub_exact (Script.currentSlide c) 1) by lia.
  rewrite (sub_exact totalSlides 1) by lia.
  destruct (Z.ltb_spec (Script.currentSlide c - 1) 0).
  - destruct (Z.leb_spec totalSlides (totalSlides - 1)); [lia |].
    apply (Z.mod_unique_pos _ _ (-1)); lia.
  - destruct (Z.leb_spec totalSlides (Script.currentSlide c - 1)); [lia |].
    symmetry. apply Z.mod_small. lia.
Qed.

(** X10.  On a valid slide index, [nextSlide] and [prevSlide] move by one
    modulo the number of slides, and each undoes the other. *)
Theorem carousel_next_prev (totalSlides : Z) (c : Script.Carousel) :
  1 <= totalSlides < 2 ^ 32 -> slide_ok totalSlides c ->
  Script.currentSlide (Script.nextSlide totalSlides c) =
    (Script.currentSlide c + 1) mod totalSlides /\
  Script.currentSlide (Script.prevSlide totalSlides c) =
    (Script.currentSlide c - 1) mod totalSlides /\
  Script.currentSlide (Script.prevSlide totalSlides (Script.nextSlide totalSlides c)) =
    Script.currentSlide c /\
  Script.currentSlide (Script.nextSlide totalSlides (Script.prevSlide totalSlides c)) =
    Script.currentSlide c.
Proof.
  intros Ht Hc.
  pose proof (nextSlide_mod totalSlides c Ht Hc) as En.
  pose proof (prevSlide_mod totalSlides c Ht Hc) as Ep.
  assert (Hn : slide_ok totalSlides (Script.nextSlide totalSlides c))
    by (apply goToSlide_slide_ok, Ht).
  assert (Hp : slide_ok totalSlides (Script.prevSlide totalSlides c))
    by (apply goToSlide_slide_ok, Ht).
  repeat split; try assumption.
  - rewrite (prevSlide_mod _ _ Ht Hn), En.
    rewrite Zminus_mod_idemp_l.
    replace (Script.currentSlide c + 1 - 1) with (Script.currentSlide c) by lia.
    apply Z.mod_small, Hc.
  - rewrite (nextSlide_mod _ _ Ht Hp), Ep.
    rewrite Zplus_mod_idemp_l.
    replace (Script.currentSlide c - 1 + 1) with (Script.currentSlide c) by lia.
    apply Z.mod_small, Hc.
Qed.

Lemma carousel_next_prev_witness :
  let c := Script.initCarousel {| Js.running := []; Js.fresh := 1 |} in
  1 <= 3 < 2 ^ 32 /\ slide_ok 3 c /\
  (Script.currentSlide (Script.nextSlide 3 c) = (Script.currentSlide c + 1) mod 3 /\
   Script.currentSlide (Script.prevSlide 3 c) = (Script.currentSlide c - 1) mod 3 /\
   Script.currentSlide (Script.prevSlide 3 (Script.nextSlide 3 c)) = Script.currentSlide c /\
   Script.currentSlide (Script.nextSlide 3 (Script.prevSlide 3 c)) = Script.currentSlide c).
Proof.
  intros c.
  assert (Ht : 1 <= 3 < 2 ^ 32) by lia.
  assert (Hc : slide_ok 3 c) by (unfold slide_ok, c; cbn; lia).
  split; [exact Ht | split; [exact Hc | exact (carousel_next_prev 3 c Ht Hc)]].
Defined.

Lemma nextSlide_iter (totalSlides : Z) (c : Script.Carousel) (n : nat) :
  1 <= totalSlides < 2 ^ 32 -> slide_ok totalSlides c ->
  slide_ok totalSlides (Nat.iter n (Script.nextSlide totalSlides) c) /\
  Script.currentSlide (Nat.iter n (Script.nextSlide totalSlides) c) =
    (Script.currentSlide c + Z.of_nat n) mod totalSlides.
Proof.
  intros Ht Hc. induction n as [| n [IHok IHeq]].
  - split; [exact Hc |]. cbn [Nat.iter Z.of_nat].
    rewrite Z.add_0_r. symmetry. apply Z.mod_small, Hc.
  - rewrite Nat.iter_succ. split.
    + apply goToSlide_slide_ok, Ht.
    + rewrite (nextSlide_mod _ _ Ht IHok), IHeq.
      rewrite Zplus_mod_idemp_l. f_equal. lia.
Qed.

(** X11.  From a valid slide index, as many [nextSlide] steps as there are
    slides lead back to the slide shown at the start. *)
Theorem carousel_full_cycle (totalSlides : Z) (c : Script.Carousel) :
  1 <= totalSlides < 2 ^ 32 -> slide_ok totalSlides c ->
  Script.currentSlide
    (Nat.iter (Z.to_nat totalSlides) (Script.nextSlide totalSlides) c) =
  Script.currentSlide c.
Proof.
  intros Ht Hc.
  rewrite (proj2 (nextSlide_iter totalSlides c (Z.to_nat totalSlides) Ht Hc)).
  rewrite Z2Nat.id by lia.
  rewrite <- (Z.mul_1_l totalSlides) at 1.
  rewrite Z_mod_plus_full. apply Z.mod_small, Hc.
Qed.

Lemma carousel_full_cycle_witness :
  let c := Script.initCarousel {| Js.running := []; Js.fresh := 1 |} in
  1 <= 3 < 2 ^ 32 /\ slide_ok 3 c /\
  Script.currentSlide (Nat.iter (Z.to_nat 3) (Script.nextSlide 3) c) =
  Script.currentSlide c.
Proof.
  intros c.
  assert (Ht : 1 <= 3 < 2 ^ 32) by lia.
  assert (Hc : slide_ok 3 c) by (unfold slide_ok, c; cbn; lia).
  split; [exact Ht | split; [exact Hc | exact (carousel_full_cycle 3 c Ht Hc)]].
Defined.

(** *** The auto-slide interval *)

Lemma goToSlide_playing (totalSlides index : Z) (c : Script.Carousel) :
  playing c \/ paused c -> playing (Script.goToSlide totalSlides index c).
Proof.
  intros H.
  destruct (goToSlide_timers totalSlides index c) as (Ea & Er & Ef).
  assert (Hrun : Js.running (Js.clearInterval (Script.autoSlideInterval c) (Script.timers c)) = []).
  { destruct H as [(_ & i & Hi & Hr) | (_ & Hr)].
    - rewrite Hi. cbn. rewrite Hr. cbn. rewrite Nat.eqb_refl. reflexivity.
    - destruct (Script.autoSlideInterval c) as [i |]; cbn; rewrite Hr; reflexivity. }
  unfold playing, timers_ok. rewrite Er, Ef, Hrun. split.
  - constructor; [lia | constructor].
  - exists (Js.fresh (Script.timers c)). split; [exact Ea | reflexivity].
Qed.

Lemma handleEvent_playing (totalSlides : Z) (c : Script.Carousel) (e : Script.CarouselEvent) :
  ~ is_hover e -> playing c -> playing (Script.handleEvent totalSlides c e).
Proof.
  intros He Hc. destruct e; cbn [Script.handleEvent];
    unfold Script.nextSlide, Script.prevSlide;
    try (apply goToSlide_playing; left; exact Hc);
    try (exfalso; apply He; exact I).
  destruct (existsb _ _); [apply goToSlide_playing; left; exact Hc | exact Hc].
Qed.

(** X12.  After [setupCarousel] on a page without running intervals exactly
    one interval runs, and it stays so through every sequence of clicks on
    the arrows and dots and of interval firings. *)
Theorem carousel_one_interval (totalSlides : Z) (t : Js.timers)
    (es : list Script.CarouselEvent) :
  timers_ok t -> Js.running t = [] -> Forall (fun e => ~ is_hover e) es ->
  playing (handleEvents totalSlides es (Script.initCarousel t)).
Proof.
  intros Hok Hrun Hes.
  assert (H0 : playing (Script.initCarousel t)).
  { destruct t as [run fr]. cbn in Hrun. subst run.
    unfold playing, timers_ok. cbn. split.
    - constructor; [lia | constructor].
    - exists fr. split; reflexivity. }
  unfold handleEvents. revert H0. generalize (Script.initCarousel t) as c.
  induction Hes as [| e es He Hes IH]; intros c Hc.
  - exact Hc.
  - rewrite fold_left_step. apply IH, handleEvent_playing; assumption.
Qed.

Lemma carousel_one_interval_witness :
  let t := {| Js.running := []; Js.fresh := 1 |} in
  let es := [Script.NextClick; Script.IntervalFires 2; Script.DotClick 0; Script.PrevClick] in
  timers_ok t /\ Js.running t = [] /\ Forall (fun e => ~ is_hover e) es /\
  playing (handleEvents 3 es (Script.initCarousel t)).
Proof.
  intros t es.
  assert (H1 : timers_ok t) by constructor.
  assert (H2 : Js.running t = []) by reflexivity.
  assert (H3 : Forall (fun e => ~ is_hover e) es)
    by (repeat constructor; intros []).
  repeat (split; [assumption |]).
  exact (carousel_one_interval 3 t es H1 H2 H3).
Defined.

(** X13.  While playing, the pointer entering the track stops the only
    interval and the pointer leaving it starts one again; the slide shown
    does not change. *)
Theorem carousel_pause_resume (totalSlides : Z) (c : Script.Carousel) :
  playing c ->
  paused (Script.handleEvent totalSlides c Script.MouseEnter) /\
  playing (handleEvents totalSlides [Script.MouseEnter; Script.MouseLeave] c) /\
  Script.currentSlide (handleEvents totalSlides [Script.MouseEnter; Script.MouseLeave] c) =
    Script.currentSlide c.
Proof.
  intros (Hok & i & Hi & Hr).
  destruct c as [cs asi [run fr]]. cbn in Hok, Hi, Hr. subst asi run.
  unfold timers_ok in Hok. cbn in Hok.
  assert (Hlt : (i < fr)%nat) by (inversion Hok; assumption).
  unfold paused, playing, timers_ok, handleEvents. cbn.
  rewrite Nat.eqb_refl. cbn.
  repeat split.
  - constructor.
  - constructor; [lia | constructor].
  - exists fr. split; reflexivity.
Qed.

Lemma carousel_pause_resume_witness :
  let c := Script.initCarousel {| Js.running := []; Js.fresh := 1 |} in
  playing c /\
  (paused (Script.handleEvent 3 c Script.MouseEnter) /\
   playing (handleEvents 3 [Script.MouseEnter; Script.MouseLeave] c) /\
   Script.currentSlide (handleEvents 3 [Script.MouseEnter; Script.MouseLeave] c) =
     Script.currentSlide c).
Proof.
  intros c.
  assert (H : playing c).
  { unfold playing, timers_ok, c. cbn. split.
    - constructor; [lia | constructor].
    - exists 1%nat. split; reflexivity. }
  split; [exact H | exact (carousel_pause_resume 3 c H)].
Defined.

(** X14.  A click on an arrow or a dot while the pointer is over the track
    starts an interval that the pointer leaving the track does not stop:
    after enter, click, leave, two intervals run. *)
Theorem carousel_second_interval (totalSlides : Z) (c : Script.Carousel)
    (e : Script.CarouselEvent) :
  playing c -> is_click e ->
  List.length
    (Js.running
       (Script.timers
          (handleEvents totalSlides [Script.MouseEnter; e; Script.MouseLeave] c))) = 2%nat.
Proof.
  intros (Hok & i & Hi & Hr) He.
  destruct c as [cs asi [run fr]]. cbn in Hok, Hi, Hr. subst asi run.
  unfold handleEvents.
  destruct e; try (exfalso; exact He); cbn; rewrite Nat.eqb_refl; reflexivity.
Qed.

Lemma carousel_second_interval_witness :
  let c := Script.initCarousel {| Js.running := []; Js.fresh := 1 |} in
  playing c /\ is_click Script.NextClick /\
  List.length
    (Js.running
       (Script.timers
          (handleEvents 3 [Script.MouseEnter; Script.NextClick; Script.MouseLeave] c))) = 2%nat.
Proof.
  intros c.
  assert (H : playing c).
  { unfold playing, timers_ok, c. cbn. split.
    - constructor; [lia | constructor].
    - exists 1%nat. split; reflexivity. }
  split; [exact H | split; [exact I | exact (carousel_second_interval 3 c Script.NextClick H I)]].
Defined.

Lemma clearInterval_running (x : option nat) (t : Js.timers) (i : nat) :
  In i (Js.running (Js.clearInterval x t)) <-> In i (Js.running t) /\ x <> Some i.
Proof.
  destruct x as [j |]; cbn.
  - rewrite filter_In. split; intros [Hin Hne]; split; try exact Hin.
    + intros E. injection E as ->. rewrite Nat.eqb_refl in Hne. discriminate.
    + destruct (Nat.eqb_spec i j) as [-> | _]; [| reflexivity].
      exfalso. apply Hne. reflexivity.
  - split; [intros H; split; [exact H | discriminate] | intros [H _]; exact H].
Qed.

Lemma clearInterval_ok (x : option nat) (t : Js.timers) :
  timers_ok t -> timers_ok (Js.clearInterval x t).
Proof.
  unfold timers_ok. rewrite !Forall_forall. intros H i Hi.
  apply clearInterval_running in Hi. destruct Hi as [Hi _].
  destruct x; apply H, Hi.
Qed.

Lemma startAutoSlide_orphan (c : Script.Carousel) (i : nat) :
  timers_ok (Script.timers c) ->
  In i (Js.running (Script.timers c)) ->
  timers_ok (Script.timers (Script.startAutoSlide c)) /\
  orphan (Script.startAutoSlide c) i.
Proof.
  destruct c as [cs asi [run fr]]. unfold timers_ok, orphan. cbn.
  rewrite !Forall_forall. intros Hok Hin. split; [| split].
  - intros j [<- | Hj]; [lia |]. specialize (Hok j Hj). cbn in Hok. lia.
  - right. exact Hin.
  - intros E. injection E as ->. specialize (Hok i Hin). cbn in Hok. lia.
Qed.

Lemma goToSlide_orphan (totalSlides index : Z) (c : Script.Carousel) (i : nat) :
  timers_ok (Script.timers c) -> orphan c i ->
  timers_ok (Script.timers (Script.goToSlide totalSlides index c)) /\
  orphan (Script.goToSlide totalSlides index c) i.
Proof.
  intros Hok [Hin Hne]. unfold Script.goToSlide, Script.resetAutoSlide. cbv zeta.
  apply startAutoSlide_orphan; cbn [Script.timers].
  - apply clearInterval_ok, Hok.
  - apply clearInterval_running. split; assumption.
Qed.

Lemma handleEvent_orphan (totalSlides : Z) (c : Script.Carousel)
    (e : Script.CarouselEvent) (i : nat) :
  timers_ok (Script.timers c) -> orphan c i ->
  timers_ok (Script.timers (Script.handleEvent totalSlides c e)) /\
  orphan (Script.handleEvent totalSlides c e) i.
Proof.
  intros Hok Ho. destruct e; cbn [Script.handleEvent];
    unfold Script.nextSlide, Script.prevSlide;
    try (apply goToSlide_orphan; assumption).
  - destruct Ho as [Hin Hne]. unfold orphan. cbn [Script.timers Script.autoSlideInterval].
    split; [apply clearInterval_ok, Hok |].
    split; [apply clearInterval_running; split; assumption | exact Hne].
  - apply startAutoSlide_orphan; [exact Hok | apply Ho].
  - destruct (existsb _ _); [apply goToSlide_orphan; assumption |].
    split; assumption.
Qed.

(** X15.  An interval that runs without being held in [autoSlideInterval]
    is never stopped: it is still running, and still not held, after every
    sequence of events. *)
Theorem carousel_orphan_forever (totalSlides : Z) (es : list Script.CarouselEvent)
    (c : Script.Carousel) (i : nat) :
  timers_ok (Script.timers c) -> orphan c i ->
  orphan (handleEvents totalSlides es c) i.
Proof.
  unfold handleEvents. revert c.
  induction es as [| e es IH]; intros c Hok Ho.
  - exact Ho.
  - rewrite fold_left_step.
    destruct (handleEvent_orphan totalSlides c e i Hok Ho) as [Hok' Ho'].
    apply IH; assumption.
Qed.

Lemma carousel_orphan_forever_witness :
  let c := handleEvents 3 [Script.MouseEnter; Script.NextClick; Script.MouseLeave]
             (Script.initCarousel {| Js.running := []; Js.fresh := 1 |}) in
  let es := [Script.NextClick; Script.MouseEnter; Script.MouseLeave; Script.DotClick 1] in
  timers_ok (Script.timers c) /\ orphan c 2 /\ orphan (handleEvents 3 es c) 2.
Proof.
  intros c es.
  assert (H1 : timers_ok (Script.timers c)).
  { unfold timers_ok, c, handleEvents. cbn. repeat constructor; lia. }
  assert (H2 : orphan c 2).
  { unfold orphan, c, handleEvents. cbn. split; [right; left; reflexivity | discriminate]. }
  split; [exact H1 | split; [exact H2 | exact (carousel_orphan_forever 3 es c 2 H1 H2)]].
Defined.

Lemma count_active_dots (cs : Z) (n a : nat) :
  List.length (List.filter (fun b : bool => b)
                 (List.map (fun index => Z.of_nat index =? cs) (seq a n))) =
  if (Z.of_nat a <=? cs) && (cs <? Z.of_nat (a + n)) then 1%nat else 0%nat.
Proof.
  revert a. induction n as [| n IH]; intros a.
  - cbn [seq List.map List.filter List.length].
    destruct (Z.leb_spec (Z.of_nat a) cs), (Z.ltb_spec cs (Z.of_nat (a + 0)));
      cbn; try reflexivity; lia.
  - cbn [seq List.map List.filter]. specialize (IH (S a)).
    destruct (Z.eqb_spec (Z.of_nat a) cs) as [E | E]; cbn [List.length]; rewrite IH.
    + destruct (Z.leb_spec (Z.of_nat (S a)) cs); [lia |].
      destruct (Z.leb_spec (Z.of_nat a) cs); [| lia].
      destruct (Z.ltb_spec cs (Z.of_nat (a + S n))); [| lia].
      reflexivity.
    + destruct (Z.leb_spec (Z.of_nat (S a)) cs), (Z.leb_spec (Z.of_nat a) cs),
        (Z.ltb_spec cs (Z.of_nat (S a + n))), (Z.ltb_spec cs (Z.of_nat (a + S n)));
        cbn; try reflexivity; lia.
Qed.

(** X16.  With one dot per slide and a valid slide index, [updateCarousel]
    marks exactly one dot active, the dot of the slide shown, and shifts the
    track by minus 100 percent per slide. *)
Theorem updateCarousel_one_dot (totalSlides : Z) (dots : nat) (c : Script.Carousel) :
  1 <= totalSlides < 2 ^ 32 -> Z.of_nat dots = totalSlides -> slide_ok totalSlides c ->
  fst (Script.updateCarousel dots c) = - (100 * Script.currentSlide c) /\
  List.length (List.filter (fun b : bool => b) (snd (Script.updateCarousel dots c))) = 1%nat /\
  nth_error (snd (Script.updateCarousel dots c)) (Z.to_nat (Script.currentSlide c)) = Some true.
Proof.
  intros Ht Hd Hc. unfold slide_ok in Hc.
  unfold Script.updateCarousel. cbv zeta. cbn [fst snd].
  split; [| split].
  - rewrite mul_exact by lia. lia.
  - rewrite count_active_dots.
    destruct (Z.leb_spec (Z.of_nat 0) (Script.currentSlide c)); [| lia].
    destruct (Z.ltb_spec (Script.currentSlide c) (Z.of_nat (0 + dots))); [| lia].
    reflexivity.
  - rewrite nth_error_map, nth_error_seq.
    destruct (Nat.ltb_spec (Z.to_nat (Script.currentSlide c)) dots) as [_ | Hge]; [| lia].
    cbn. rewrite Z2Nat.id by lia. rewrite Z.eqb_refl. reflexivity.
Qed.

Lemma updateCarousel_one_dot_witness :
  let c := Script.initCarousel {| Js.running := []; Js.fresh := 1 |} in
  1 <= 3 < 2 ^ 32 /\ Z.of_nat 3 = 3 /\ slide_ok 3 c /\
  (fst (Script.updateCarousel 3 c) = - (100 * Script.currentSlide c) /\
   List.length (List.filter (fun b : bool => b) (snd (Script.updateCarousel 3 c))) = 1%nat /\
   nth_error (snd (Script.updateCarousel 3 c)) (Z.to_nat (Script.currentSlide c)) = Some true).
Proof.
  intros c.
  assert (Ht : 1 <= 3 < 2 ^ 32) by lia.
  assert (Hd : Z.of_nat 3 = 3) by reflexivity.
  assert (Hc : slide_ok 3 c) by (unfold slide_ok, c; cbn; lia).
  repeat (split; [assumption |]).
  exact (updateCarousel_one_dot 3 3 c Ht Hd Hc).
Defined.

(** ** The game list *)



Lemma push_images (d : option (Js.str -> Js.str -> Z)) (p : Js.str)
    (images : list Js.str) :
  forall acc,
  fold_left (fun allGames imageName => (allGames ++ [Script.makeGame d p imageName])%list)
    images acc =
  (acc ++ List.map (Script.makeGame d p) images)%list.
Proof.
  induction images as [| img images IH]; intros acc.
  - cbn. rewrite app_nil_r. reflexivity.
  - rewrite fold_left_step, IH. cbn [List.map].
    rewrite <- app_assoc. reflexivity.
Qed.

Lemma pushGames_gamesOf (d : option (Js.str -> Js.str -> Z))
    (entries : list (Js.str * list Js.str)) :
  forall acc, Script.pushGames d entries acc = (acc ++ gamesOf d entries)%list.
Proof.
  unfold Script.pushGames, gamesOf.
  induction entries as [| [p images] entries IH]; intros acc.
  - cbn. rewrite app_nil_r. reflexivity.
  - rewrite fold_left_step, push_images, IH.
    cbn [flat_map fst snd]. rewrite <- app_assoc. reflexivity.
Qed.

(** X17.  The loading loop appends one game per image, in the order of the
    entries and of their images, dropping and repeating none; every game
    has the id [provider/imageName] and the path [images/] followed by its
    id. *)
Theorem pushGames_complete (d : option (Js.str -> Js.str -> Z))
    (entries : list (Js.str * list Js.str)) (acc : list App.Game) :
  Script.pushGames d entries acc = (acc ++ gamesOf d entries)%list /\
  List.length (Script.pushGames d entries acc) =
    (List.length acc + list_sum (List.map (fun entry => List.length (snd entry)) entries))%nat /\
  Forall (fun game =>
            App.id game = (App.provider game ++ Js.lit "/" ++ App.imageName game)%list /\
            App.imagePath game = (Js.lit "images/" ++ App.id game)%list)
    (gamesOf d entries).
Proof.
  split; [apply pushGames_gamesOf |]. split.
  - rewrite pushGames_gamesOf, length_app. f_equal.
    unfold gamesOf. induction entries as [| [p images] entries IH].
    + reflexivity.
    + cbn [flat_map List.map list_sum fst snd].
      rewrite length_app, length_map, IH. reflexivity.
  - unfold gamesOf. rewrite Forall_forall. intros game Hin.
    apply in_flat_map in Hin. destruct Hin as ([p images] & _ & Hin).
    apply in_map_iff in Hin. destruct Hin as (img & <- & _).
    split; reflexivity.
Qed.







(** ** Cards *)

Lemma multiplier_defined (gameId : GameId) (now : Date) :
  exists entry label,
    In entry (Script.multipliers Script.CONFIG) /\
    (label = "Manual" \/ label = "Auto") /\
    Script.generateRandomMultiplier gameId now =
      Some {| Script.r_value := Script.value entry;
              Script.r_type := Script.type entry;
              Script.r_text := label |}.
Proof.
  unfold Script.generateRandomMultiplier. cbv zeta.
  change (Z.of_nat (List.length (Script.multipliers Script.CONFIG))) with 9.
  rewrite (sub_exact 9 1) by lia. change (9 - 1) with 8.
  match goal with
  | |- context [Js.index _ ?i] => remember i as idx eqn:Ei
  end.
  assert (Hi : 0 <= idx <= 8) by (subst idx; apply getSeededRandomInt_range; lia).
  destruct (index_in_range (Script.multipliers Script.CONFIG) idx) as (entry & Hnth & Hidx).
  { change (Z.of_nat (List.length (Script.multipliers Script.CONFIG))) with 9. lia. }
  rewrite Hidx. apply nth_error_In in Hnth.
  match goal with
  | |- context [if ?b then _ else _] => destruct b
  end.
  - exists entry, "Manual". repeat split; [exact Hnth | left; reflexivity].
  - exists entry, "Auto". repeat split; [exact Hnth | right; reflexivity].
Qed.

Lemma variant_multiplier (gameId : GameId) (now : Date) :
  option_map (fun r => (Part000.r_value r, Part000.r_type r))
    (Part000.generateRandomMultiplier gameId now) =
  option_map (fun r => (Script.r_value r, Script.r_type r))
    (Script.generateRandomMultiplier gameId now).
Proof.
  unfold Part000.generateRandomMultiplier, Script.generateRandomMultiplier.
  cbv zeta.
  rewrite variant_getTimeSeed, variant_gameNumericId, variant_getSeededRandomInt.
  change (List.length (Part000.multipliers Part000.CONFIG))
    with (List.length (Script.multipliers Script.CONFIG)).
  set (i := Script.getSeededRandomInt _ 0 _).
  pose proof (index_map (fun m => (Part000.value m, Part000.type m))
                (Part000.multipliers Part000.CONFIG) i) as E1.
  pose proof (index_map (fun m => (Script.value m, Script.type m))
                (Script.multipliers Script.CONFIG) i) as E2.
  rewrite variant_table, E2 in E1.
  destruct (Js.index (Part000.multipliers Part000.CONFIG) i) as [p |],
           (Js.index (Script.multipliers Script.CONFIG) i) as [q |];
    cbn in E1 |- *; congruence.
Qed.

Lemma variant_generateRandomRTP (gameId : GameId) (now : Date) :
  Part000.generateRandomRTP gameId now = Script.generateRandomRTP gameId now.
Proof.
  unfold Part000.generateRandomRTP, Script.generateRandomRTP. cbv zeta.
  rewrite variant_getTimeSeed, variant_gameNumericId, variant_getSeededRandomInt.
  reflexivity.
Qed.

Lemma variant_getRTPColorClass (rtp : Z) :
  Part000.getRTPColorClass rtp = Script.getRTPColorClass rtp.
Proof. unfold Part000.getRTPColorClass, Script.getRTPColorClass. reflexivity. Qed.



Lemma createGameCard_variant (game : App.Game) (index : Z) (now1 now2 : Date) :
  exists c1 c2 entry label,
    Script.createGameCard game index now1 now2 = Some c1 /\
    Part000.createGameCard game index now1 now2 = Some c2 /\
    In entry (Script.multipliers Script.CONFIG) /\
    (label = "Manual" \/ label = "Auto") /\
    c1 = App.mkCard (App.id game) (App.provider game) (App.imagePath game)
           (Script.value entry ++ " " ++ label)%string
           (Script.getRTPColorClass (Script.generateRandomRTP (IdString (App.id game)) now1))
           (Script.generateRandomRTP (IdString (App.id game)) now1) /\
    c2 = App.mkCard (App.id game) (App.provider game) (App.imagePath game)
           (Script.value entry ++ " Manual")%string
           (Script.getRTPColorClass (Script.generateRandomRTP (IdString (App.id game)) now1))
           (Script.generateRandomRTP (IdString (App.id game)) now1).
Proof.
  unfold Script.createGameCard, Part000.createGameCard. cbv zeta.
  pose proof (variant_multiplier (IdString (App.id game)) now2) as Ev.
  destruct (multiplier_defined (IdString (App.id game)) now2)
    as (entry & label & Hin & Hl & E).
  rewrite E in Ev |- *.
  destruct (Part000.generateRandomMultiplier (IdString (App.id game)) now2)
    as [[v ty] |]; [| discriminate Ev].
  cbn in Ev. injection Ev as Ev1 Ev2.
  rewrite (variant_generateRandomRTP (IdString (App.id game)) now1).
  rewrite (variant_getRTPColorClass
             (Script.generateRandomRTP (IdString (App.id game)) now1)).
  cbn [Part000.r_value Script.r_value Script.r_text]. subst v.
  do 4 eexists.
  split; [reflexivity |]. split; [reflexivity |].
  split; [exact Hin |]. split; [exact Hl |].
  split; reflexivity.
Qed.

(** X19.  The two files build the same card for a game and the same clock
    readings, except for the word after the multiplier value: it is Manual
    or Auto in [src/script.js] and always Manual in the variant; both
    always succeed. *)
Theorem cards_differ_in_label (game : App.Game) (index : Z) (now1 now2 : Date) :
  exists c1 c2 value label,
    Script.createGameCard game index now1 now2 = Some c1 /\
    Part000.createGameCard game index now1 now2 = Some c2 /\
    (label = "Manual" \/ label = "Auto") /\
    App.multiplier_text c1 = (value ++ " " ++ label)%string /\
    App.multiplier_text c2 = (value ++ " Manual")%string /\
    App.data_game_id c1 = App.data_game_id c2 /\
    App.data_provider c1 = App.data_provider c2 /\
    App.img_src c1 = App.img_src c2 /\
    App.rtp_bar_class c1 = App.rtp_bar_class c2 /\
    App.data_rtp c1 = App.data_rtp c2.
Proof.
  destruct (createGameCard_variant game index now1 now2)
    as (c1 & c2 & entry & label & E1 & E2 & _ & Hl & -> & ->).
  eexists. eexists. exists (Script.value entry), label.
  split; [exact E1 |]. split; [exact E2 |]. split; [exact Hl |].
  cbn [App.data_game_id App.data_provider App.img_src App.data_rtp
       App.rtp_bar_class App.multiplier_text].
  split; [reflexivity |]. split; [reflexivity |]. split; [reflexivity |].
  split; [reflexivity |]. split; [reflexivity |]. split; reflexivity.
Qed.








Lemma createGameCard_same_minute (game : App.Game) (index : Z) (a1 a2 b1 b2 : Date) :
  same_minute a1 b1 -> same_minute a2 b2 ->
  Script.createGameCard game index a1 a2 = Script.createGameCard game index b1 b2.
Proof.
  intros H1 H2. unfold Script.createGameCard. cbv zeta.
  destruct (display_from_epoch_minute (IdString (App.id game)) a1 b1
              (getTimeSeed_same_minute a1 b1 H1)) as [-> _].
  destruct (display_from_epoch_minute (IdString (App.id game)) a2 b2
              (getTimeSeed_same_minute a2 b2 H2)) as [_ ->].
  reflexivity.
Qed.

(** X21.  Two renderings of the same state whose clock readings fall, one
    by one, in the same local minutes produce the same cards. *)
Theorem renderGameCards_stable (st : App.State) (clock1 clock2 : nat -> Date) :
  (forall k, same_minute (clock1 k) (clock2 k)) ->
  Script.renderGameCards st clock1 = Script.renderGameCards st clock2.
Proof.
  intros Hsame. unfold Script.renderGameCards. cbv zeta.
  generalize (Script.filterGamesByProvider (App.currentProvider st) st) as games.
  intros games.
  generalize (Z.to_nat (Z.of_nat (List.length games))) as n.
  generalize (@nil App.Card) as grid. generalize 0%nat as k. generalize 0 as i.
  intros i k grid n. revert i k grid.
  induction n as [| n IH]; intros i k grid; cbn [Script.renderLoop].
  - reflexivity.
  - destruct (Js.index games i) as [game |]; [| reflexivity].
    rewrite (createGameCard_same_minute game i _ _ _ _ (Hsame k) (Hsame (S k))).
    destruct (Script.createGameCard game i (clock2 k) (clock2 (S k))); [| reflexivity].
    apply IH.
Qed.

Lemma renderGameCards_stable_witness :
  let st := App.mkState true (Js.lit "all")
              (Script.pushGames None [(Js.lit "pg", [Js.lit "a.png"])] []) in
  let clock1 := fun k : nat => mkDate 2024 0 15 10 30 0 (Z.of_nat k) in
  let clock2 := fun k : nat => mkDate 2024 0 15 10 30 45 (Z.of_nat k) in
  (forall k, same_minute (clock1 k) (clock2 k)) /\
  Script.renderGameCards st clock1 = Script.renderGameCards st clock2.
Proof.
  intros st clock1 clock2.
  assert (H : forall k, same_minute (clock1 k) (clock2 k))
    by (intros k; unfold same_minute, clock1, clock2; cbn; repeat split).
  split; [exact H | exact (renderGameCards_stable st clock1 clock2 H)].
Defined.

(** ** The variant's Show All button *)


Lemma maxCards_cases (st : App.State) :
  Part000.maxCards st =
  if App.showAllGames st
  then Z.of_nat (List.length (Part000.filterGamesByProvider (App.currentProvider st) st))
  else Z.min 20 (Z.of_nat (List.length (Part000.filterGamesByProvider (App.currentProvider st) st))).
Proof.
  unfold Part000.maxCards. cbv zeta.
  change (Part000.gamesPerProvider Part000.CONFIG) with 20.
  change (20 =? 0) with false. rewrite orb_false_r. reflexivity.
Qed.



(** X23.  In the variant, a click on a provider tab limits the cards to
    the first 20 games of that provider, a click on Show All after it shows
    all of them, and two clicks on Show All restore the state. *)
Theorem variant_tab_then_show_all (provider : Js.str) (st : App.State) :
  let games := Part000.filterGamesByProvider provider st in
  Part000.maxCards (Part000.tabClick provider st) =
    Z.min 20 (Z.of_nat (List.length games)) /\
  Part000.maxCards (Part000.showAllClick (Part000.tabClick provider st)) =
    Z.of_nat (List.length games) /\
  Part000.showAllClick (Part000.showAllClick st) = st.
Proof.
  cbv zeta. rewrite !maxCards_cases. split; [| split].
  - reflexivity.
  - reflexivity.
  - destruct st as [[|] p games]; reflexivity.
Qed.

(** ** The priority breakdown *)

Lemma countPriority_total (pc : Script.PriorityCounts) (game : App.Game) :
  0 <= Script.fortuneImages pc -> 0 <= Script.popularImages pc ->
  0 <= Script.fortuneProviders pc -> 0 <= Script.olympusGames pc ->
  0 <= Script.popularProviders pc -> 0 <= Script.regularGames pc ->
  totalCount pc < 2 ^ 52 ->
  let pc' := Script.countPriority pc game in
  totalCount pc' = totalCount pc + 1 /\
  0 <= Script.fortuneImages pc' /\ 0 <= Script.popularImages pc' /\
  0 <= Script.fortuneProviders pc' /\ 0 <= Script.olympusGames pc' /\
  0 <= Script.popularProviders pc' /\ 0 <= Script.regularGames pc'.
Proof.
  destruct pc as [c1 c2 c3 c4 c5 c6]. unfold totalCount. cbn.
  intros H1 H2 H3 H4 H5 H6 Ht.
  repeat match goal with
         | |- context [if ?b then _ else _] => destruct b
         end; cbn; js_exact; lia.
Qed.

Lemma priorityCounts_fold (games : list App.Game) :
  forall pc,
  0 <= Script.fortuneImages pc -> 0 <= Script.popularImages pc ->
  0 <= Script.fortuneProviders pc -> 0 <= Script.olympusGames pc ->
  0 <= Script.popularProviders pc -> 0 <= Script.regularGames pc ->
  totalCount pc + Z.of_nat (List.length games) < 2 ^ 52 ->
  totalCount (fold_left Script.countPriority games pc) =
  totalCount pc + Z.of_nat (List.length games).
Proof.
  induction games as [| game games IH]; intros pc H1 H2 H3 H4 H5 H6 Ht.
  - cbn. lia.
  - rewrite fold_left_step. cbn [List.length] in Ht |- *.
    destruct (countPriority_total pc game H1 H2 H3 H4 H5 H6 ltac:(lia))
      as (Et & G1 & G2 & G3 & G4 & G5 & G6).
    rewrite IH by (try assumption; lia). lia.
Qed.

(** X24.  The six counters of the priority breakdown add up to the number
    of games: every game is counted under exactly one of them. *)
Theorem priorityCounts_total (allGames : list App.Game) :
  Z.of_nat (List.length allGames) < 2 ^ 32 ->
  totalCount (Script.priorityCounts allGames) = Z.of_nat (List.length allGames).
Proof.
  intros Hlen. unfold Script.priorityCounts.
  rewrite priorityCounts_fold; cbn; lia.
Qed.

Lemma priorityCounts_total_witness :
  let allGames := Script.pushGames None
                    [(Js.lit "pg", [Js.lit "a.png"; Js.lit "b.png"])] [] in
  Z.of_nat (List.length allGames) < 2 ^ 32 /\
  totalCount (Script.priorityCounts allGames) = Z.of_nat (List.length allGames).
Proof.
  intros allGames.
  assert (H : Z.of_nat (List.length allGames) < 2 ^ 32)
    by (unfold allGames; cbn; lia).
  split; [exact H | exact (priorityCounts_total allGames H)].
Defined.
